(** * Expense approval backend: store model and approval routes

    Shallow embedding of [expense_approval_backend.py]: the SQLModel tables
    become records held in a [DB] of row lists, a route body becomes a
    computation in the [Session] monad (the store threaded through, an
    [HTTPException] ending the computation), and the properties of the
    approval workflow are stated on [submit_expense] and [act_on_approval]. *)

From Stdlib Require Import ZArith List Lia.
From Stdlib Require Import Floats.PrimFloat.
From stdpp Require Import base list strings gmap.

Open Scope string_scope.
Open Scope Z_scope.

(** ** Models: one record per SQLModel table; a primary key is a Python
    [int], a nullable foreign key an [option Z], [datetime] a timestamp. *)

Module User.
Record t := mk {
  id : Z;
  email : string;
  password : string;
  role : string;
  company_id : Z;
  manager_id : option Z
}.
End User.

Module Expense.
Record t := mk {
  id : Z;
  amount : float;
  currency : string;
  category : string;
  description : string;
  date : Z;
  user_id : Z
}.
End Expense.

Module ApprovalRequest.
Record t := mk {
  id : Z;
  status : string;
  step : Z;
  expense_id : Z;
  approver_id : Z
}.

(** [approval.status = action]: every other column keeps its value. *)
Definition set_status (a : t) (s : string) : t :=
  mk (id a) s (step a) (expense_id a) (approver_id a).
End ApprovalRequest.

Module ApprovalRule.
Record t := mk {
  id : Z;
  company_id : Z;
  step : Z;
  approver_id : option Z;
  percentage_required : option float;
  hybrid : bool
}.
End ApprovalRule.

(** ** The store: the rows of each table, in rowid order. *)

Record DB := mkDB {
  users : list User.t;
  expenses : list Expense.t;
  approvals : list ApprovalRequest.t;
  rules : list ApprovalRule.t
}.

Record HTTPException := mkHTTP { status_code : Z; detail : string }.

(** What a route body can raise: an [HTTPException] of its own, or the error
    of a statement the database driver refuses, [IntegrityError] for a NULL
    bound into a NOT NULL column and [OverflowError] for an integer that is
    no SQLite INTEGER. Neither is caught by a route. *)
Inductive Exception : Type :=
| Http (e : HTTPException)
| IntegrityError
| OverflowError.
Coercion Http : HTTPException >-> Exception.

Inductive Result (A : Type) : Type :=
| Return (a : A)
| Raise (e : Exception).
Arguments Return {A} a.
Arguments Raise {A} e.

(** A route body: reads and writes the store, returns or raises. *)
Definition Session (A : Type) : Type := DB -> Result A * DB.

Definition ret {A} (a : A) : Session A := fun db => (Return a, db).

Definition bind {A B} (m : Session A) (k : A -> Session B) : Session B :=
  fun db =>
    match m db with
    | (Return a, db') => k a db'
    | (Raise e, db') => (Raise e, db')
    end.

Definition raise {A} (e : Exception) : Session A := fun db => (Raise e, db).

Declare Scope session_scope.
Delimit Scope session_scope with session.
Notation "x <- m ;; k" := (bind m (fun x => k))
  (at level 100, m at next level, right associativity) : session_scope.
Notation "m ;;; k" := (bind m (fun _ => k))
  (at level 100, right associativity) : session_scope.
Open Scope session_scope.

(** [for x in xs: body x]. *)
Fixpoint for_each {A} (xs : list A) (body : A -> Session unit) : Session unit :=
  match xs with
  | [] => ret tt
  | x :: xs' => body x ;;; for_each xs' body
  end.

(** ** Store primitives *)

(** The integer primary key given to a new row: one past the largest rowid of
    the table, 1 for an empty table. *)
Definition next_id (ids : list Z) : Z := 1 + fold_right Z.max 0 ids.

(** Truth value of an [Optional[int]]: [None] and [0] are false. *)
Definition truthy (o : option Z) : bool :=
  match o with
  | Some n => negb (n =? 0)
  | None => false
  end.

(** The integer held by an [Optional[int]] that was tested to be true. *)
Definition int_of (o : option Z) : Z := default 0 o.

(** The integers SQLite binds and stores: signed, 64 bits. *)
Definition is_int64 (n : Z) : bool :=
  (- 2 ^ 63 <=? n) && (n <=? 2 ^ 63 - 1).

(** A float as it comes back from a REAL column: a value without fractional
    part is kept as an integer, so the sign of [-0.0] is lost; every other
    number is read back as it was written. *)
Definition sqlite_real (x : float) : float :=
  if is_zero x then zero else x.

(** [session.add(expense); session.commit(); session.refresh(expense)] for a
    new expense. NaN is bound as NULL, which the NOT NULL column [amount]
    refuses: the commit raises and nothing is stored. Otherwise the row is
    stored under a fresh id and handed back as the store holds it. *)
Definition add_expense (amount : float) (currency category description : string)
    (date user_id : Z) : Session Expense.t :=
  fun db =>
    if is_nan amount then (Raise IntegrityError, db)
    else
      let e := Expense.mk (next_id (Expense.id <$> expenses db))
                 (sqlite_real amount) currency category description date
                 user_id in
      (Return e, mkDB (users db) (expenses db ++ [e]) (approvals db) (rules db)).

(** [session.add(ApprovalRequest(step=.., expense_id=.., approver_id=..))]:
    the status column takes its default, ["pending"]. *)
Definition add_approval (step expense_id approver_id : Z) : Session unit :=
  fun db =>
    let a := ApprovalRequest.mk (next_id (ApprovalRequest.id <$> approvals db))
               "pending" step expense_id approver_id in
    (Return tt, mkDB (users db) (expenses db) (approvals db ++ [a]) (rules db)).

(** [select(ApprovalRule).where(ApprovalRule.company_id == cid)] *)
Definition select_rules (cid : Z) : Session (list ApprovalRule.t) :=
  fun db =>
    (Return (filter (λ r, ApprovalRule.company_id r = cid) (rules db)), db).

(** The row of a primary key, [None] when no row has it; a key that is no
    SQLite INTEGER is the key of no row. *)
Definition lookup_approval (approval_id : Z) (db : DB) : option ApprovalRequest.t :=
  if is_int64 approval_id
  then find (fun a => ApprovalRequest.id a =? approval_id) (approvals db)
  else None.

(** [session.get(ApprovalRequest, approval_id)]: the key is bound into a
    SELECT, which raises for an integer that is no SQLite INTEGER. *)
Definition get_approval (approval_id : Z) : Session (option ApprovalRequest.t) :=
  fun db =>
    if is_int64 approval_id
    then (Return (lookup_approval approval_id db), db)
    else (Raise OverflowError, db).

(** [UPDATE approvalrequest SET status = action WHERE id = approval_id], seen
    from one row. *)
Definition restatus (approval_id : Z) (action : string)
    (a : ApprovalRequest.t) : ApprovalRequest.t :=
  if ApprovalRequest.id a =? approval_id
  then ApprovalRequest.set_status a action else a.

(** [approval.status = action; session.add(approval); session.commit()]: the
    row of that primary key is rewritten with the new status. *)
Definition update_status (approval_id : Z) (action : string) : Session unit :=
  fun db =>
    (Return tt,
     mkDB (users db) (expenses db)
       (restatus approval_id action <$> approvals db) (rules db)).

(** ** Routes *)

Record SubmitResponse := mkSubmit { sr_expense_id : Z; sr_status : string }.
Record ActResponse := mkAct { ar_approval_id : Z; ar_status : string }.

(** [POST /expenses]; [utcnow] is the value of [datetime.utcnow()]. *)
Definition submit_expense (amount : float) (currency category description : string)
    (utcnow : Z) (current_user : User.t) : Session SubmitResponse :=
  expense <- add_expense amount currency category description utcnow
               (User.id current_user) ;;
  rules <- select_rules (User.company_id current_user) ;;
  (if bool_decide (rules = []) && truthy (User.manager_id current_user)
   then add_approval 1 (Expense.id expense) (int_of (User.manager_id current_user))
   else for_each rules (fun rule =>
          if truthy (ApprovalRule.approver_id rule)
          then add_approval (ApprovalRule.step rule) (Expense.id expense)
                 (int_of (ApprovalRule.approver_id rule))
          else ret tt)) ;;;
  ret (mkSubmit (Expense.id expense) "submitted").

(** [POST /approvals/{approval_id}] *)
Definition act_on_approval (approval_id : Z) (action : string)
    (current_user : User.t) : Session ActResponse :=
  approval <- get_approval approval_id ;;
  match approval with
  | None => raise (mkHTTP 404 "Approval not found")
  | Some a =>
      if negb (ApprovalRequest.approver_id a =? User.id current_user)
      then raise (mkHTTP 404 "Approval not found")
      else if negb (bool_decide (action ∈ ["approved"; "rejected"]))
      then raise (mkHTTP 400 "Invalid action")
      else
        update_status approval_id action ;;;
        ret (mkAct (ApprovalRequest.id a) action)
  end.

(** ** Concrete stores used by the examples below *)

Definition alice : User.t := User.mk 5 "alice@acme.test" "pw" "employee" 1 None.
Definition bob : User.t := User.mk 2 "bob@acme.test" "pw" "manager" 1 None.
Definition carol : User.t := User.mk 3 "carol@acme.test" "pw" "manager" 1 None.
Definition dave : User.t := User.mk 4 "dave@acme.test" "pw" "manager" 1 None.
Definition erin : User.t := User.mk 6 "erin@acme.test" "pw" "admin" 1 None.
Definition frank : User.t := User.mk 7 "frank@acme.test" "pw" "employee" 1 (Some 2).

Definition acme_users : list User.t := [bob; carol; dave; alice; erin; frank].

(** A company with no approval rule. *)
Definition db_no_rules : DB := mkDB acme_users [] [] [].

(** Two fixed-approver steps, neither with a percentage: bob, then carol. *)
Definition db_two_steps : DB :=
  mkDB acme_users [] []
    [ApprovalRule.mk 1 1 1 (Some 2) None false;
     ApprovalRule.mk 2 1 2 (Some 3) None false].

(** Step 1 is a 60% rule over bob, carol and dave; step 2 is erin alone. *)
Definition db_pool : DB :=
  mkDB acme_users [] []
    [ApprovalRule.mk 1 1 1 (Some 2) (Some 60%float) false;
     ApprovalRule.mk 2 1 1 (Some 3) (Some 60%float) false;
     ApprovalRule.mk 3 1 1 (Some 4) (Some 60%float) false;
     ApprovalRule.mk 4 1 2 (Some 6) None false].

(** The store after a session has run, whatever it returned. *)
Definition after {A} (m : Session A) (db : DB) : DB := snd (m db).

(** Alice files a taxi receipt. *)
Definition alice_submits : Session SubmitResponse :=
  submit_expense 12.5%float "USD" "travel" "taxi" 1700000000 alice.

(** The store with another rule table. *)
Definition with_rules (db : DB) (rs : list ApprovalRule.t) : DB :=
  mkDB (users db) (expenses db) (approvals db) rs.

(** No request of the expense of request [approval_id], other than that
    request, is left pending. *)
Definition siblings_cancelled (approval_id : Z) (db : DB) : Prop :=
  ∀ a b, lookup_approval approval_id db = Some a →
    b ∈ approvals db →
    ApprovalRequest.expense_id b = ApprovalRequest.expense_id a →
    ApprovalRequest.id b ≠ approval_id →
    ApprovalRequest.status b ≠ "pending".

(** The requests of [db'] whose primary key is not in use in [db]. *)
Definition created (db db' : DB) : list ApprovalRequest.t :=
  filter (λ a, ApprovalRequest.id a ∉ ApprovalRequest.id <$> approvals db)
    (approvals db').

(** The requests of an expense that are still pending. *)
Definition pending_of (expense_id : Z) (db : DB) : list ApprovalRequest.t :=
  filter (λ a, ApprovalRequest.expense_id a = expense_id
               ∧ ApprovalRequest.status a = "pending")
    (approvals db).

(** What a new request records, its primary key apart. *)
Definition columns (a : ApprovalRequest.t) : string * Z * Z * Z :=
  (ApprovalRequest.status a, ApprovalRequest.step a,
   ApprovalRequest.expense_id a, ApprovalRequest.approver_id a).

(** Alice's receipt under the two-step rules, then bob's verdicts on his
    request (primary key 1). *)
Definition db_submitted : DB := after alice_submits db_two_steps.
Definition db_approved : DB := after (act_on_approval 1 "approved" bob) db_submitted.
Definition db_rejected : DB := after (act_on_approval 1 "rejected" bob) db_submitted.
Definition db_flipped : DB := after (act_on_approval 1 "rejected" bob) db_approved.

(** Alice's receipt under the 60% rule; then bob approves while carol and
    dave reject. *)
Definition db_pool_submitted : DB := after alice_submits db_pool.
Definition db_pool_voted : DB :=
  after (act_on_approval 1 "approved" bob ;;;
         act_on_approval 2 "rejected" carol ;;;
         act_on_approval 3 "rejected" dave) db_pool_submitted.

(** ** The rest of the application: companies, tokens, the other routes *)

Module Company.
Record t := mk {
  id : Z;
  name : string;
  country : string;
  currency : string
}.
End Company.

Module UserRole.
Definition ADMIN : string := "admin".
Definition MANAGER : string := "manager".
Definition EMPLOYEE : string := "employee".
End UserRole.

(** The state of the running process: the store read by the approval routes,
    its company table, and the module-level dict [fake_tokens]. *)
Record App := mkApp {
  store : DB;
  companies : list Company.t;
  fake_tokens : gmap string Z
}.

(** A route body that also reaches the companies or the tokens. *)
Definition Handler (A : Type) : Type := App -> Result A * App.

Definition hret {A} (a : A) : Handler A := fun app => (Return a, app).

Definition hbind {A B} (m : Handler A) (k : A -> Handler B) : Handler B :=
  fun app =>
    match m app with
    | (Return a, app') => k a app'
    | (Raise e, app') => (Raise e, app')
    end.

Definition hraise {A} (e : Exception) : Handler A :=
  fun app => (Raise e, app).

Declare Scope handler_scope.
Delimit Scope handler_scope with handler.
Notation "x <- m ;; k" := (hbind m (fun x => k))
  (at level 100, m at next level, right associativity) : handler_scope.

(** A session run against the store of the process. *)
Definition in_session {A} (m : Session A) : Handler A :=
  fun app =>
    let (r, db) := m (store app) in
    (r, mkApp db (companies app) (fake_tokens app)).

(** [create_token]; [token] is the value of [str(uuid.uuid4())]. *)
Definition create_token (token : string) (user_id : Z) : Handler string :=
  fun app =>
    (Return token,
     mkApp (store app) (companies app) (<[token := user_id]> (fake_tokens app))).

(** [session.get(User, user_id)] *)
Definition lookup_user (user_id : Z) (db : DB) : option User.t :=
  find (fun u => User.id u =? user_id) (users db).

(** [get_current_user]; [token] is [credentials.credentials]. *)
Definition get_current_user (token : string) : Handler User.t :=
  fun app =>
    match fake_tokens app !! token with
    | None => (Raise (mkHTTP 401 "Invalid token"), app)
    | Some user_id =>
        match lookup_user user_id (store app) with
        | None => (Raise (mkHTTP 401 "User not found"), app)
        | Some user => (Return user, app)
        end
    end.

(** [session.add(new_company); session.commit(); session.refresh(new_company)] *)
Definition add_company (name country currency : string) : Handler Company.t :=
  fun app =>
    let c := Company.mk (next_id (Company.id <$> companies app))
               name country currency in
    (Return c, mkApp (store app) (companies app ++ [c]) (fake_tokens app)).

(** [session.add(user); session.commit(); session.refresh(user)]: a
    [manager_id] that is no SQLite INTEGER cannot be bound, the commit raises
    and nothing is stored. *)
Definition add_user (email password role : string) (company_id : Z)
    (manager_id : option Z) : Session User.t :=
  fun db =>
    if from_option is_int64 true manager_id
    then
      let u := User.mk (next_id (User.id <$> users db))
                 email password role company_id manager_id in
      (Return u, mkDB (users db ++ [u]) (expenses db) (approvals db) (rules db))
    else (Raise OverflowError, db).

Definition currency_map : gmap string string :=
  <["US" := "USD"]> (<["IN" := "INR"]> (<["UK" := "GBP"]> ∅)).

Record SignupResponse := mkSignup {
  su_company : string; su_admin_id : Z; su_token : string
}.
Record LoginResponse := mkLogin {
  lg_user_id : Z; lg_role : string; lg_token : string
}.
Record CreateUserResponse := mkCreated {
  cu_id : Z; cu_email : string; cu_role : string
}.

(** [POST /signup]; [upper] is Python's [str.upper], [token] the uuid that
    [create_token] draws. *)
Definition signup (upper : string -> string)
    (company country email password token : string) : Handler SignupResponse :=
  (let currency := default "USD" (currency_map !! upper country) in
   new_company <- add_company company country currency ;;
   admin <- in_session (add_user email password UserRole.ADMIN
                          (Company.id new_company) None) ;;
   token <- create_token token (User.id admin) ;;
   hret (mkSignup (Company.name new_company) (User.id admin) token))%handler.

(** [POST /login]: the first user row with that email and password. *)
Definition login (email password token : string) : Handler LoginResponse :=
  fun app =>
    match find (fun u => bool_decide (User.email u = email
                                      ∧ User.password u = password))
            (users (store app)) with
    | None => (Raise (mkHTTP 400 "Invalid credentials"), app)
    | Some user =>
        (token <- create_token token (User.id user) ;;
         hret (mkLogin (User.id user) (User.role user) token))%handler app
    end.

(** [POST /users] *)
Definition create_user (email password role : string) (manager_id : option Z)
    (current_user : User.t) : Session CreateUserResponse :=
  if negb (bool_decide (User.role current_user = UserRole.ADMIN))
  then raise (mkHTTP 403 "Only admin can create users")
  else
    new_user <- add_user email password role (User.company_id current_user)
                  manager_id ;;
    ret (mkCreated (User.id new_user) (User.email new_user) (User.role new_user)).

(** [GET /approvals] *)
Definition get_approvals (current_user : User.t)
    : Session (list ApprovalRequest.t) :=
  fun db =>
    (Return (filter (λ a, ApprovalRequest.approver_id a = User.id current_user)
               (approvals db)), db).

(** What the caller of a route gets: a response or an HTTP error produced by
    the route, or the [AttributeError] of reading [.users] on a company that
    is [None]. *)
Inductive Served (A : Type) : Type :=
| Responded (r : Result A)
| AttributeError.
Arguments Responded {A} r.
Arguments AttributeError {A}.

(** [current_user.company]: the company row of the user's [company_id]. *)
Definition company_of (current_user : User.t) (app : App) : option Company.t :=
  find (fun c => Company.id c =? User.company_id current_user) (companies app).

(** [company.users]: the user rows that point to the company. *)
Definition company_users (company : Company.t) (app : App) : list User.t :=
  filter (λ u, User.company_id u = Company.id company) (users (store app)).

(** [GET /company/expenses]; the store is only read. *)
Definition list_company_expenses (current_user : User.t) (app : App)
    : Served (list Expense.t) :=
  if negb (bool_decide (User.role current_user = UserRole.ADMIN))
  then Responded (Raise (mkHTTP 403 "Only admin can view company expenses"))
  else
    match company_of current_user app with
    | None => AttributeError
    | Some company =>
        Responded (Return
          (filter (λ e, Expense.user_id e ∈ User.id <$> company_users company app)
             (expenses (store app))))
    end.

(** A route with [current_user = Depends(get_current_user)]: the user is
    resolved from the bearer token before the body runs. *)
Definition authenticated {A} (token : string) (route : User.t -> Handler A)
    : Handler A :=
  (current_user <- get_current_user token ;; route current_user)%handler.

(** The requests the application answers, with the values drawn while
    answering them ([token], [utcnow]). *)
Inductive Call : Type :=
| Signup (company country email password token : string)
| Login (email password token : string)
| CreateUser (auth email password role : string) (manager_id : option Z)
| SubmitExpense (auth : string) (amount : float)
    (currency category description : string) (utcnow : Z)
| GetApprovals (auth : string)
| ActOnApproval (auth : string) (approval_id : Z) (action : string)
| ListCompanyExpenses (auth : string).

(** The state the process is left in by a call. *)
Definition serve (upper : string -> string) (c : Call) (app : App) : App :=
  match c with
  | Signup company country email password token =>
      snd (signup upper company country email password token app)
  | Login email password token => snd (login email password token app)
  | CreateUser auth email password role manager_id =>
      snd (authenticated auth (fun u =>
             in_session (create_user email password role manager_id u)) app)
  | SubmitExpense auth amount currency category description utcnow =>
      snd (authenticated auth (fun u =>
             in_session (submit_expense amount currency category description
                           utcnow u)) app)
  | GetApprovals auth =>
      snd (authenticated auth (fun u => in_session (get_approvals u)) app)
  | ActOnApproval auth approval_id action =>
      snd (authenticated auth (fun u =>
             in_session (act_on_approval approval_id action u)) app)
  | ListCompanyExpenses auth => app
  end.

(** Primary keys are unique, every foreign key written by a route names a
    stored row, and every token names a stored user. *)
Record consistent (app : App) : Prop := mkConsistent {
  users_key : NoDup (User.id <$> users (store app));
  expenses_key : NoDup (Expense.id <$> expenses (store app));
  approvals_key : NoDup (ApprovalRequest.id <$> approvals (store app));
  companies_key : NoDup (Company.id <$> companies app);
  user_company : ∀ u, u ∈ users (store app) →
    User.company_id u ∈ Company.id <$> companies app;
  token_user : ∀ t uid, fake_tokens app !! t = Some uid →
    uid ∈ User.id <$> users (store app);
  expense_user : ∀ e, e ∈ expenses (store app) →
    Expense.user_id e ∈ User.id <$> users (store app);
  approval_expense : ∀ a, a ∈ approvals (store app) →
    ApprovalRequest.expense_id a ∈ Expense.id <$> expenses (store app)
}.

(** [str.upper] on ASCII text. *)
Definition ascii_upper_char (c : Ascii.ascii) : Ascii.ascii :=
  let n := Ascii.N_of_ascii c in
  if ((97 <=? n) && (n <=? 122))%N then Ascii.ascii_of_N (n - 32) else c.

Fixpoint ascii_upper (s : string) : string :=
  match s with
  | EmptyString => EmptyString
  | String c s' => String (ascii_upper_char c) (ascii_upper s')
  end.

(** The process right after start-up, with the rule table it is given. *)
Definition fresh_app (rs : list ApprovalRule.t) : App :=
  mkApp (mkDB [] [] [] rs) [] ∅.

(** The states of the process: started with some rule table, then any calls. *)
Inductive reachable (upper : string -> string) (rs : list ApprovalRule.t)
    : App -> Prop :=
| reachable_start : reachable upper rs (fresh_app rs)
| reachable_serve app c :
    reachable upper rs app -> reachable upper rs (serve upper c app).

(** A running process: an admin (id 1), a manager (2) and an employee (3) who
    reports to the manager, each logged in, in one company without rules. *)
Definition office : App :=
  foldl (fun app c => serve ascii_upper c app) (fresh_app [])
    [Signup "Acme" "in" "root@acme.test" "r00t" "tok-root";
     CreateUser "tok-root" "mia@acme.test" "pw-mia" "manager" None;
     CreateUser "tok-root" "eli@acme.test" "pw-eli" "employee" (Some 2);
     Login "mia@acme.test" "pw-mia" "tok-mia";
     Login "eli@acme.test" "pw-eli" "tok-eli"].

Definition root : User.t := User.mk 1 "root@acme.test" "r00t" "admin" 1 None.
Definition mia : User.t := User.mk 2 "mia@acme.test" "pw-mia" "manager" 1 None.
Definition eli : User.t := User.mk 3 "eli@acme.test" "pw-eli" "employee" 1 (Some 2).

(** [app'] holds everything [app] holds: the same rules, the rows of [app]
    in front of any new ones (a request possibly with another status), and a
    user id for every token of [app]. *)
Definition extends (app app' : App) : Prop :=
  rules (store app') = rules (store app) ∧
  users (store app) `prefix_of` users (store app') ∧
  expenses (store app) `prefix_of` expenses (store app') ∧
  companies app `prefix_of` companies app' ∧
  (ApprovalRequest.id <$> approvals (store app))
    `prefix_of` (ApprovalRequest.id <$> approvals (store app')) ∧
  ∀ t, is_Some (fake_tokens app !! t) → is_Some (fake_tokens app' !! t).

(** * Properties *)

(** ** The two routes, unfolded *)

Lemma act_on_approval_unfold approval_id action current_user db :
  act_on_approval approval_id action current_user db =
  if is_int64 approval_id
  then
    match lookup_approval approval_id db with
    | None => (Raise (mkHTTP 404 "Approval not found"), db)
    | Some a =>
        if negb (ApprovalRequest.approver_id a =? User.id current_user)
        then (Raise (mkHTTP 404 "Approval not found"), db)
        else if negb (bool_decide (action ∈ ["approved"; "rejected"]))
        then (Raise (mkHTTP 400 "Invalid action"), db)
        else (Return (mkAct (ApprovalRequest.id a) action),
              mkDB (users db) (expenses db)
                (restatus approval_id action <$> approvals db) (rules db))
    end
  else (Raise OverflowError, db).
Proof.
  unfold act_on_approval, bind, get_approval.
  destruct (is_int64 approval_id); [|reflexivity].
  destruct (lookup_approval approval_id db) as [a|]; [|reflexivity].
  unfold raise, update_status, ret.
  destruct (negb (_ =? _)); [reflexivity|].
  destruct (negb (bool_decide _)); reflexivity.
Qed.

Lemma lookup_approval_int64 approval_id db a :
  lookup_approval approval_id db = Some a → is_int64 approval_id = true.
Proof. unfold lookup_approval. by destruct (is_int64 approval_id). Qed.

Lemma lookup_approval_id approval_id db a :
  lookup_approval approval_id db = Some a → ApprovalRequest.id a = approval_id.
Proof.
  unfold lookup_approval. destruct (is_int64 approval_id); [|done].
  intros H. apply find_some in H as [_ H]. lia.
Qed.

Lemma lookup_approval_elem_of approval_id db a :
  lookup_approval approval_id db = Some a → a ∈ approvals db.
Proof.
  unfold lookup_approval. destruct (is_int64 approval_id); [|done].
  intros H. apply find_some in H as [H _]. by apply list_elem_of_In.
Qed.

Lemma action_allowed (action : string) :
  bool_decide (action ∈ ["approved"; "rejected"]) = true ↔
  action = "approved" ∨ action = "rejected".
Proof.
  rewrite bool_decide_eq_true, !elem_of_cons, elem_of_nil. tauto.
Qed.

(** A request found and owned by the caller, with an allowed action: the
    call returns and rewrites the status of that row. *)
Lemma act_on_approval_returns approval_id action current_user db a :
  lookup_approval approval_id db = Some a →
  ApprovalRequest.approver_id a = User.id current_user →
  action = "approved" ∨ action = "rejected" →
  act_on_approval approval_id action current_user db =
    (Return (mkAct approval_id action),
     mkDB (users db) (expenses db)
       (restatus approval_id action <$> approvals db) (rules db)).
Proof.
  intros Hfind Hown Hact.
  rewrite act_on_approval_unfold, (lookup_approval_int64 _ _ _ Hfind), Hfind.
  apply Z.eqb_eq in Hown. rewrite Hown. simpl.
  apply action_allowed in Hact. rewrite Hact. simpl.
  by rewrite (lookup_approval_id _ _ _ Hfind).
Qed.

(** Conversely, a call that returns went through every guard. *)
Lemma act_on_approval_inv approval_id action current_user db r db' :
  act_on_approval approval_id action current_user db = (Return r, db') →
  ∃ a, lookup_approval approval_id db = Some a ∧
       ApprovalRequest.approver_id a = User.id current_user ∧
       (action = "approved" ∨ action = "rejected") ∧
       r = mkAct approval_id action ∧
       db' = mkDB (users db) (expenses db)
               (restatus approval_id action <$> approvals db) (rules db).
Proof.
  rewrite act_on_approval_unfold.
  destruct (is_int64 approval_id); [|discriminate].
  destruct (lookup_approval approval_id db) as [a|] eqn:Hfind; [|discriminate].
  destruct (ApprovalRequest.approver_id a =? User.id current_user) eqn:Hown;
    simpl; [|discriminate].
  destruct (bool_decide (action ∈ ["approved"; "rejected"])) eqn:Hact;
    simpl; [|discriminate].
  intros [= <- <-]. exists a.
  rewrite (lookup_approval_id _ _ _ Hfind).
  repeat split; try done; [lia | by apply action_allowed].
Qed.

(** A call that raises leaves the store as it was. *)
Lemma act_on_approval_raise approval_id action current_user db e db' :
  act_on_approval approval_id action current_user db = (Raise e, db') → db' = db.
Proof.
  rewrite act_on_approval_unfold.
  destruct (is_int64 approval_id); [|congruence].
  destruct (lookup_approval approval_id db) as [a|]; [|congruence].
  destruct (negb (_ =? _)); [congruence|].
  destruct (negb (bool_decide _)); congruence.
Qed.

Lemma restatus_other approval_id action a :
  ApprovalRequest.id a ≠ approval_id → restatus approval_id action a = a.
Proof. unfold restatus. intros H. apply Z.eqb_neq in H. by rewrite H. Qed.

Lemma restatus_self approval_id action a :
  ApprovalRequest.id a = approval_id →
  restatus approval_id action a = ApprovalRequest.set_status a action.
Proof. unfold restatus. intros H. apply Z.eqb_eq in H. by rewrite H. Qed.

Lemma restatus_id approval_id action a :
  ApprovalRequest.id (restatus approval_id action a) = ApprovalRequest.id a.
Proof. unfold restatus. by destruct (_ =? _). Qed.

Lemma restatus_idem approval_id action a :
  restatus approval_id action (restatus approval_id action a)
  = restatus approval_id action a.
Proof.
  unfold restatus. destruct (ApprovalRequest.id a =? approval_id) eqn:E.
  - unfold ApprovalRequest.set_status at 1 3. simpl. by rewrite E.
  - by rewrite E.
Qed.

Lemma lookup_approval_restatus approval_id action db a :
  lookup_approval approval_id db = Some a →
  lookup_approval approval_id
    (mkDB (users db) (expenses db)
       (restatus approval_id action <$> approvals db) (rules db))
  = Some (ApprovalRequest.set_status a action).
Proof.
  unfold lookup_approval. destruct (is_int64 approval_id); [|done].
  simpl. induction (approvals db) as [|b l IH]; simpl; [done|].
  rewrite restatus_id. destruct (ApprovalRequest.id b =? approval_id) eqn:E.
  - intros [= ->]. f_equal. apply restatus_self. lia.
  - exact IH.
Qed.

Lemma created_same_ids db db' :
  ApprovalRequest.id <$> approvals db' = ApprovalRequest.id <$> approvals db →
  created db db' = [].
Proof.
  intros Hids. unfold created.
  destruct (filter _ (approvals db')) as [|a l] eqn:E; [done|].
  assert (Ha : a ∈ filter
            (λ a, ApprovalRequest.id a ∉ ApprovalRequest.id <$> approvals db)
            (approvals db')) by (rewrite E; left).
  apply list_elem_of_filter in Ha as [Hfresh Ha].
  destruct Hfresh. rewrite <- Hids. by apply list_elem_of_fmap_2.
Qed.

Lemma restatus_ids approval_id action (l : list ApprovalRequest.t) :
  ApprovalRequest.id <$> (restatus approval_id action <$> l)
  = ApprovalRequest.id <$> l.
Proof.
  rewrite <- list_fmap_compose. apply list_fmap_ext.
  intros i a _. apply restatus_id.
Qed.

Lemma restatus_keeps_others approval_id action (l : list ApprovalRequest.t) b :
  b ∈ l → ApprovalRequest.id b ≠ approval_id →
  b ∈ restatus approval_id action <$> l.
Proof.
  intros Hb Hne. apply list_elem_of_fmap. exists b.
  by rewrite restatus_other.
Qed.

(** ** Acting on a request *)

(** C10: a call of [act_on_approval] that returns changes nothing but the
    status of the request with the given id. Users, expenses (every field of
    the owning expense) and rules are as before; the request table has the
    same length and, position by position, the same rows, except that the row
    of that id now carries the action as its status, its other columns kept. *)
Theorem act_on_approval_frame approval_id action current_user db r db' :
  act_on_approval approval_id action current_user db = (Return r, db') →
  users db' = users db ∧ expenses db' = expenses db ∧ rules db' = rules db ∧
  length (approvals db') = length (approvals db) ∧
  ∀ (i : nat) (a : ApprovalRequest.t), approvals db !! i = Some a →
    ∃ a', approvals db' !! i = Some a' ∧
      ApprovalRequest.id a' = ApprovalRequest.id a ∧
      ApprovalRequest.step a' = ApprovalRequest.step a ∧
      ApprovalRequest.expense_id a' = ApprovalRequest.expense_id a ∧
      ApprovalRequest.approver_id a' = ApprovalRequest.approver_id a ∧
      (ApprovalRequest.id a ≠ approval_id → a' = a) ∧
      (ApprovalRequest.id a = approval_id → ApprovalRequest.status a' = action).
Proof.
  intros Hrun.
  apply act_on_approval_inv in Hrun as (a0 & _ & _ & _ & _ & ->); simpl.
  repeat split; [apply length_fmap|].
  intros i a Hi. exists (restatus approval_id action a).
  split; [by rewrite list_lookup_fmap, Hi|].
  unfold restatus. destruct (ApprovalRequest.id a =? approval_id) eqn:E; simpl.
  - repeat split; try done. intros Hne. lia.
  - repeat split; try done. intros Heq. lia.
Qed.

Lemma act_on_approval_frame_witness :
  act_on_approval 1 "approved" bob db_submitted
    = (Return (mkAct 1 "approved"), db_approved) ∧
  expenses db_approved = expenses db_submitted ∧
  length (approvals db_approved) = length (approvals db_submitted).
Proof.
  pose proof (act_on_approval_frame 1 "approved" bob db_submitted
                (mkAct 1 "approved") db_approved eq_refl) as H.
  split; [reflexivity|]. split; apply H.
Defined.

(** *** Rejections *)

(** C1, as stated, fails: under two fixed-approver rules without percentage,
    bob rejects his pending request and the call returns, yet carol's request
    for the same expense is still pending afterwards. *)
Lemma reject_leaves_siblings_pending :
  lookup_approval 1 db_submitted = Some (ApprovalRequest.mk 1 "pending" 1 1 2) ∧
  act_on_approval 1 "rejected" bob db_submitted
    = (Return (mkAct 1 "rejected"), db_rejected) ∧
  ¬ siblings_cancelled 1 db_rejected.
Proof.
  split; [reflexivity|]. split; [reflexivity|].
  intros Hcancel.
  apply (Hcancel (ApprovalRequest.mk 1 "rejected" 1 1 2)
                 (ApprovalRequest.mk 2 "pending" 2 1 3)); try done.
  vm_compute. right. left.
Qed.

(** C1, amended: the action [rejected] on a pending request of the caller
    returns and stores [rejected] as the status of that request; the expense
    rows are untouched (an expense carries no status), no request is created,
    and every other request, pending ones of the same expense included, is
    kept as it was. *)
Theorem reject_rewrites_one_request approval_id current_user db a :
  lookup_approval approval_id db = Some a →
  ApprovalRequest.status a = "pending" →
  ApprovalRequest.approver_id a = User.id current_user →
  ∃ db',
    act_on_approval approval_id "rejected" current_user db
      = (Return (mkAct approval_id "rejected"), db') ∧
    lookup_approval approval_id db'
      = Some (ApprovalRequest.set_status a "rejected") ∧
    expenses db' = expenses db ∧
    created db db' = [] ∧
    ∀ b, b ∈ approvals db → ApprovalRequest.id b ≠ approval_id →
         b ∈ approvals db'.
Proof.
  intros Hfind _ Hown. eexists. split.
  - apply (act_on_approval_returns _ _ _ _ a); auto.
  - split; [by apply lookup_approval_restatus|].
    split; [done|]. split.
    + apply created_same_ids. apply restatus_ids.
    + intros b Hb Hne. by apply restatus_keeps_others.
Qed.

Lemma reject_rewrites_one_request_witness :
  ∃ db',
    act_on_approval 1 "rejected" bob db_submitted
      = (Return (mkAct 1 "rejected"), db') ∧
    lookup_approval 1 db' = Some (ApprovalRequest.mk 1 "rejected" 1 1 2) ∧
    expenses db' = expenses db_submitted ∧
    created db_submitted db' = [] ∧
    ∀ b, b ∈ approvals db_submitted → ApprovalRequest.id b ≠ 1 →
         b ∈ approvals db'.
Proof.
  exact (reject_rewrites_one_request 1 bob db_submitted
           (ApprovalRequest.mk 1 "pending" 1 1 2) eq_refl eq_refl eq_refl).
Defined.

(** *** Approvals *)

(** C2, as stated, fails: with rules at steps 1 and 2, bob's approval
    completes step 1, which is not the last configured step, and the call
    creates no request. The request of step 2 was created when the expense
    was submitted. *)
Lemma approval_creates_no_request :
  (ApprovalRule.step <$> rules db_submitted) = [1; 2] ∧
  act_on_approval 1 "approved" bob db_submitted
    = (Return (mkAct 1 "approved"), db_approved) ∧
  created db_submitted db_approved = [] ∧
  (ApprovalRequest.step <$> created db_two_steps db_submitted) = [1; 2].
Proof. repeat split; reflexivity. Qed.

(** C2, amended: the action [approved] on a request of the caller returns and
    stores [approved] as the status of that request, whatever step it belongs
    to. Nothing else happens when a step is approved: no request is created
    (those of later steps exist since submission), and the expense rows and
    the rules are as before, no expense status being recorded. *)
Theorem approve_rewrites_one_request approval_id current_user db a :
  lookup_approval approval_id db = Some a →
  ApprovalRequest.approver_id a = User.id current_user →
  ∃ db',
    act_on_approval approval_id "approved" current_user db
      = (Return (mkAct approval_id "approved"), db') ∧
    approvals db' = restatus approval_id "approved" <$> approvals db ∧
    created db db' = [] ∧
    expenses db' = expenses db ∧ rules db' = rules db.
Proof.
  intros Hfind Hown. eexists. split.
  - apply (act_on_approval_returns _ _ _ _ a); auto.
  - simpl. repeat split. apply created_same_ids, restatus_ids.
Qed.

Lemma approve_rewrites_one_request_witness :
  ∃ db',
    act_on_approval 1 "approved" bob db_submitted
      = (Return (mkAct 1 "approved"), db') ∧
    approvals db' = restatus 1 "approved" <$> approvals db_submitted ∧
    created db_submitted db' = [] ∧
    expenses db' = expenses db_submitted ∧ rules db' = rules db_submitted.
Proof.
  exact (approve_rewrites_one_request 1 bob db_submitted
           (ApprovalRequest.mk 1 "pending" 1 1 2) eq_refl eq_refl).
Defined.

(** *** Requests already resolved *)

(** C3, as stated, fails: bob's request is already approved; his later
    [rejected] returns instead of raising, and the stored status changes from
    [approved] to [rejected]. *)
Lemma resolved_request_is_overwritten :
  lookup_approval 1 db_approved = Some (ApprovalRequest.mk 1 "approved" 1 1 2) ∧
  act_on_approval 1 "rejected" bob db_approved
    = (Return (mkAct 1 "rejected"), db_flipped) ∧
  lookup_approval 1 db_flipped = Some (ApprovalRequest.mk 1 "rejected" 1 1 2).
Proof. repeat split; reflexivity. Qed.

(** C3, amended: the status of a request is not consulted. On a request of
    the caller, pending or resolved, either action returns and stores the
    action as the status; repeating the same action returns again and leaves
    the store as the first call left it. *)
Theorem resolved_request_accepts_actions approval_id action current_user db a :
  lookup_approval approval_id db = Some a →
  ApprovalRequest.approver_id a = User.id current_user →
  action = "approved" ∨ action = "rejected" →
  ∃ db',
    act_on_approval approval_id action current_user db
      = (Return (mkAct approval_id action), db') ∧
    lookup_approval approval_id db'
      = Some (ApprovalRequest.set_status a action) ∧
    act_on_approval approval_id action current_user db'
      = (Return (mkAct approval_id action), db').
Proof.
  intros Hfind Hown Hact. eexists. split; [|split].
  - apply (act_on_approval_returns _ _ _ _ a); auto.
  - by apply lookup_approval_restatus.
  - rewrite (act_on_approval_returns approval_id action current_user _
               (ApprovalRequest.set_status a action));
      [|by apply lookup_approval_restatus|done|done].
    simpl. do 2 f_equal. rewrite <- list_fmap_compose.
    apply list_fmap_ext. intros i b _. apply restatus_idem.
Qed.

Lemma resolved_request_accepts_actions_witness :
  ∃ db',
    act_on_approval 1 "rejected" bob db_approved
      = (Return (mkAct 1 "rejected"), db') ∧
    lookup_approval 1 db' = Some (ApprovalRequest.mk 1 "rejected" 1 1 2) ∧
    act_on_approval 1 "rejected" bob db'
      = (Return (mkAct 1 "rejected"), db').
Proof.
  exact (resolved_request_accepts_actions 1 "rejected" bob db_approved
           (ApprovalRequest.mk 1 "approved" 1 1 2) eq_refl eq_refl
           (or_intror eq_refl)).
Defined.

(** *** Guards *)

(** C8, as stated, fails: request 1 exists and belongs to bob; carol acting on
    it gets the same exception as for an id that names no request at all,
    404 "Approval not found", and no 403. *)
Lemma foreign_request_reads_as_missing :
  lookup_approval 1 db_submitted = Some (ApprovalRequest.mk 1 "pending" 1 1 2) ∧
  lookup_approval 99 db_submitted = None ∧
  act_on_approval 1 "approved" carol db_submitted
    = (Raise (mkHTTP 404 "Approval not found"), db_submitted) ∧
  act_on_approval 1 "approved" carol db_submitted
    = act_on_approval 99 "approved" carol db_submitted.
Proof. repeat split; reflexivity. Qed.

(** C8, amended: for an id that is a 64-bit integer, an id that names no
    request, and a request whose approver is not the caller, both raise the
    one exception 404 "Approval not found", with the store unchanged. *)
Theorem missing_or_foreign_request_is_404 approval_id action current_user db :
  is_int64 approval_id = true →
  lookup_approval approval_id db = None ∨
  (∃ a, lookup_approval approval_id db = Some a ∧
        ApprovalRequest.approver_id a ≠ User.id current_user) →
  act_on_approval approval_id action current_user db
    = (Raise (mkHTTP 404 "Approval not found"), db).
Proof.
  intros Hrange. rewrite act_on_approval_unfold, Hrange.
  intros [-> | (a & -> & Hne)]; [done|].
  apply Z.eqb_neq in Hne. by rewrite Hne.
Qed.

Lemma missing_or_foreign_request_is_404_witness :
  act_on_approval 1 "approved" carol db_submitted
    = (Raise (mkHTTP 404 "Approval not found"), db_submitted) ∧
  act_on_approval 99 "approved" carol db_submitted
    = (Raise (mkHTTP 404 "Approval not found"), db_submitted).
Proof.
  split.
  - apply missing_or_foreign_request_is_404; [reflexivity|]. right.
    exists (ApprovalRequest.mk 1 "pending" 1 1 2). split; [reflexivity|].
    simpl. lia.
  - apply missing_or_foreign_request_is_404; [reflexivity|]. by left.
Defined.

(** C9, as stated, fails: on bob's own pending request the values [approve]
    and [reject] raise 400 "Invalid action", while the value [approved] is
    accepted; and an unknown value sent for an id that names no request
    raises 404, the guard on the request coming first. *)
Lemma approve_is_an_invalid_action :
  act_on_approval 1 "approve" bob db_submitted
    = (Raise (mkHTTP 400 "Invalid action"), db_submitted) ∧
  act_on_approval 1 "reject" bob db_submitted
    = (Raise (mkHTTP 400 "Invalid action"), db_submitted) ∧
  act_on_approval 1 "approved" bob db_submitted
    = (Return (mkAct 1 "approved"), db_approved) ∧
  act_on_approval 99 "escalate" bob db_submitted
    = (Raise (mkHTTP 404 "Approval not found"), db_submitted).
Proof. repeat split; reflexivity. Qed.

(** C9, amended: on a request of the caller, the accepted action values are
    exactly [approved] and [rejected], the strings that are stored as the
    status: with one of them the call returns, with any other value it raises
    400 "Invalid action" and leaves the store unchanged. *)
Theorem accepted_actions approval_id action current_user db a :
  lookup_approval approval_id db = Some a →
  ApprovalRequest.approver_id a = User.id current_user →
  (action = "approved" ∨ action = "rejected" →
     ∃ db', act_on_approval approval_id action current_user db
              = (Return (mkAct approval_id action), db')) ∧
  (action ≠ "approved" → action ≠ "rejected" →
     act_on_approval approval_id action current_user db
       = (Raise (mkHTTP 400 "Invalid action"), db)).
Proof.
  intros Hfind Hown. split.
  - intros Hact. eexists. by apply (act_on_approval_returns _ _ _ _ a).
  - intros Hna Hnr.
    rewrite act_on_approval_unfold, (lookup_approval_int64 _ _ _ Hfind), Hfind.
    apply Z.eqb_eq in Hown. rewrite Hown. simpl.
    rewrite bool_decide_eq_false_2; [done|].
    rewrite !elem_of_cons, elem_of_nil. tauto.
Qed.

Lemma accepted_actions_witness :
  (∃ db', act_on_approval 1 "rejected" bob db_submitted
            = (Return (mkAct 1 "rejected"), db')) ∧
  act_on_approval 1 "approve" bob db_submitted
    = (Raise (mkHTTP 400 "Invalid action"), db_submitted).
Proof.
  split.
  - apply (accepted_actions 1 "rejected" bob db_submitted
             (ApprovalRequest.mk 1 "pending" 1 1 2) eq_refl eq_refl).
    by right.
  - apply (accepted_actions 1 "approve" bob db_submitted
             (ApprovalRequest.mk 1 "pending" 1 1 2) eq_refl eq_refl);
      discriminate.
Defined.

(** *** Percentage rules *)

(** C5: the code does not do what the claim says, although the rule column
    is declared for it ([percentage_required], "if set, requires %
    approvals"). Step 1 is a 60% rule over three approvers; after one
    approval and two rejections, which leave the threshold out of reach, the
    expense is not terminated: erin's request of step 2 is still pending, and
    she can still approve it. *)
Lemma pool_rejections_end_nothing :
  (ApprovalRule.percentage_required <$> rules db_pool_submitted)
    = [Some 60%float; Some 60%float; Some 60%float; None] ∧
  (columns <$> approvals db_pool_voted)
    = [("approved", 1, 1, 2); ("rejected", 1, 1, 3); ("rejected", 1, 1, 4);
       ("pending", 2, 1, 6)] ∧
  pending_of 1 db_pool_voted = [ApprovalRequest.mk 4 "pending" 2 1 6] ∧
  fst (act_on_approval 4 "approved" erin db_pool_voted)
    = Return (mkAct 4 "approved").
Proof. repeat split; reflexivity. Qed.

(** X19: [act_on_approval] reads no rule. Whatever rule table the store
    holds, [percentage_required] included, it returns or raises the same and
    writes the same rows; and whatever it returns, it creates no request and
    keeps every request other than the one acted on as it was, a pending one
    pending. *)
Theorem act_on_approval_ignores_rules approval_id action current_user db rs :
  act_on_approval approval_id action current_user (with_rules db rs)
  = (fst (act_on_approval approval_id action current_user db),
     with_rules (after (act_on_approval approval_id action current_user) db) rs) ∧
  created db (after (act_on_approval approval_id action current_user) db) = [] ∧
  ∀ b, b ∈ approvals db → ApprovalRequest.id b ≠ approval_id →
       b ∈ approvals (after (act_on_approval approval_id action current_user) db).
Proof.
  split.
  - unfold after. rewrite !act_on_approval_unfold.
    unfold lookup_approval, with_rules; simpl.
    destruct (is_int64 approval_id); [|done].
    destruct (find _ _) as [a|]; [|done].
    destruct (negb (_ =? _)); [done|].
    by destruct (negb (bool_decide _)).
  - unfold after.
    destruct (act_on_approval approval_id action current_user db)
      as [[r|e] db'] eqn:Hrun; simpl.
    + apply act_on_approval_inv in Hrun as (a & _ & _ & _ & _ & ->).
      split; [apply created_same_ids, restatus_ids|].
      intros b Hb Hne. by apply restatus_keeps_others.
    + apply act_on_approval_raise in Hrun as ->.
      split; [by apply created_same_ids|done].
Qed.

Lemma act_on_approval_ignores_rules_witness :
  act_on_approval 3 "rejected" dave (with_rules db_pool_submitted [])
  = (Return (mkAct 3 "rejected"),
     with_rules (after (act_on_approval 3 "rejected" dave) db_pool_submitted) []) ∧
  ApprovalRequest.mk 4 "pending" 2 1 6
    ∈ approvals (after (act_on_approval 3 "rejected" dave) db_pool_submitted).
Proof.
  destruct (act_on_approval_ignores_rules 3 "rejected" dave db_pool_submitted [])
    as (Hsame & _ & Hkept).
  split; [exact Hsame|].
  apply Hkept; [|simpl; lia].
  vm_compute. do 3 right. left.
Defined.

(** ** Submitting an expense *)

(** Primary keys start at 1: no stored row has the id 0. *)
Lemma next_id_positive ids : 0 < next_id ids.
Proof.
  unfold next_id.
  assert (0 ≤ fold_right Z.max 0 ids) by (induction ids; simpl; lia).
  lia.
Qed.

(** The loop over the company's rules: one pending request is appended for
    each rule that names an approver, in the order of the rules, at the step
    of its rule. *)
Lemma for_each_rule_requests expense_id (rs : list ApprovalRule.t) db :
  ∃ news,
    for_each rs (fun rule =>
      if truthy (ApprovalRule.approver_id rule)
      then add_approval (ApprovalRule.step rule) expense_id
             (int_of (ApprovalRule.approver_id rule))
      else ret tt) db
    = (Return tt, mkDB (users db) (expenses db) (approvals db ++ news) (rules db)) ∧
    columns <$> news
    = (λ r, ("pending", ApprovalRule.step r, expense_id,
             int_of (ApprovalRule.approver_id r)))
      <$> filter (λ r, truthy (ApprovalRule.approver_id r)) rs.
Proof.
  revert db. induction rs as [|rule rs IH]; intros db.
  - exists []. simpl. rewrite app_nil_r. by destruct db.
  - simpl. unfold bind at 1.
    destruct (truthy (ApprovalRule.approver_id rule)) eqn:Ht.
    + unfold add_approval at 1.
      match goal with |- context [for_each rs ?body ?d] =>
        destruct (IH d) as (news & -> & Hcols) end.
      simpl. eexists (_ :: news). split.
      * by rewrite <- app_assoc.
      * rewrite filter_cons_True by (by rewrite Ht).
        rewrite !fmap_cons. by rewrite Hcols.
    + unfold ret at 1.
      destruct (IH db) as (news & -> & Hcols).
      exists news. split; [done|].
      rewrite filter_cons_False by (rewrite Ht; simpl; tauto). done.
Qed.

(** A NaN amount: the first commit raises, nothing is stored and no request
    is created. *)
Lemma submit_expense_nan amount currency category description utcnow
    current_user db :
  is_nan amount = true →
  submit_expense amount currency category description utcnow current_user db
  = (Raise IntegrityError, db).
Proof.
  intros Hnan. unfold submit_expense, bind at 1, add_expense.
  by rewrite Hnan.
Qed.

Lemma submit_expense_unfold amount currency category description utcnow
    current_user db :
  is_nan amount = false →
  let e := Expense.mk (next_id (Expense.id <$> expenses db))
             (sqlite_real amount) currency category description utcnow
             (User.id current_user) in
  let rs := filter (λ r, ApprovalRule.company_id r = User.company_id current_user)
              (rules db) in
  submit_expense amount currency category description utcnow current_user db
  = match
      (if bool_decide (rs = []) && truthy (User.manager_id current_user)
       then add_approval 1 (Expense.id e) (int_of (User.manager_id current_user))
       else for_each rs (fun rule =>
              if truthy (ApprovalRule.approver_id rule)
              then add_approval (ApprovalRule.step rule) (Expense.id e)
                     (int_of (ApprovalRule.approver_id rule))
              else ret tt))
        (mkDB (users db) (expenses db ++ [e]) (approvals db) (rules db))
    with
    | (Return _, db') => (Return (mkSubmit (Expense.id e) "submitted"), db')
    | (Raise ex, db') => (Raise ex, db')
    end.
Proof.
  intros Hnan. unfold submit_expense, bind at 1, add_expense.
  rewrite Hnan. reflexivity.
Qed.

(** C4, as stated, fails: with rules at steps 1 and 2, submitting creates two
    requests, one of them at step 2. *)
Lemma submission_creates_later_steps :
  (ApprovalRule.step <$> rules db_two_steps) = [1; 2] ∧
  fst (alice_submits db_two_steps) = Return (mkSubmit 1 "submitted") ∧
  approvals db_two_steps = [] ∧
  approvals db_submitted
    = [ApprovalRequest.mk 1 "pending" 1 1 2; ApprovalRequest.mk 2 "pending" 2 1 3] ∧
  ¬ (∀ a, a ∈ approvals db_submitted → ApprovalRequest.step a = 1).
Proof.
  repeat split; try reflexivity.
  intros Hall.
  specialize (Hall (ApprovalRequest.mk 2 "pending" 2 1 3)).
  discriminate Hall. vm_compute. right. left.
Qed.

(** C4, amended: when the submitter's company has at least one rule and the
    amount is a number (not NaN, which the store refuses),
    [submit_expense] stores the expense and creates one pending request for
    every rule of the company that names an approver, at the step of that
    rule, whichever step it is; rules without an approver create nothing. *)
Theorem submit_expense_with_rules amount currency category description utcnow
    current_user db :
  is_nan amount = false →
  filter (λ r, ApprovalRule.company_id r = User.company_id current_user)
    (rules db) ≠ [] →
  ∃ e news,
    e = Expense.mk (next_id (Expense.id <$> expenses db)) (sqlite_real amount)
          currency category description utcnow (User.id current_user) ∧
    submit_expense amount currency category description utcnow current_user db
    = (Return (mkSubmit (Expense.id e) "submitted"),
       mkDB (users db) (expenses db ++ [e]) (approvals db ++ news) (rules db)) ∧
    columns <$> news
    = (λ r, ("pending", ApprovalRule.step r, Expense.id e,
             int_of (ApprovalRule.approver_id r)))
      <$> filter (λ r, truthy (ApprovalRule.approver_id r))
            (filter (λ r, ApprovalRule.company_id r = User.company_id current_user)
               (rules db)).
Proof.
  intros Hnan Hrules. eexists. rewrite submit_expense_unfold by done.
  rewrite bool_decide_eq_false_2 by done. cbn [andb Expense.id].
  match goal with |- context [for_each ?rs ?body ?d] =>
    destruct (for_each_rule_requests
                (next_id (Expense.id <$> expenses db)) rs d)
      as (news & Hloop & Hcols) end.
  exists news. split; [reflexivity|].
  cbn [Expense.id]. by rewrite Hloop.
Qed.

Lemma submit_expense_with_rules_witness :
  ∃ e news,
    e = Expense.mk 1 12.5%float "USD" "travel" "taxi" 1700000000 5 ∧
    alice_submits db_two_steps
    = (Return (mkSubmit (Expense.id e) "submitted"),
       mkDB acme_users [e] news (rules db_two_steps)) ∧
    columns <$> news = [("pending", 1, 1, 2); ("pending", 2, 1, 3)].
Proof.
  destruct (submit_expense_with_rules 12.5%float "USD" "travel" "taxi"
              1700000000 alice db_two_steps) as (e & news & He & Hrun & Hcols).
  - reflexivity.
  - vm_compute. discriminate.
  - exists e, news. subst e. repeat split; [exact Hrun | exact Hcols].
Defined.

(** C6: when the submitter's company has no rule and the submitter has a
    manager ([manager_id] set, to the id of a user: primary keys start at 1,
    see [next_id_positive]), [submit_expense] of an expense the store takes
    (its amount is a number, not NaN) returns and creates exactly one request:
    pending, at step 1, for the new expense, with the manager as approver. *)
Theorem submit_expense_manager_fallback amount currency category description
    utcnow current_user db m :
  filter (λ r, ApprovalRule.company_id r = User.company_id current_user)
    (rules db) = [] →
  User.manager_id current_user = Some m →
  m ≠ 0 →
  is_nan amount = false →
  let e := Expense.mk (next_id (Expense.id <$> expenses db))
             (sqlite_real amount) currency category description utcnow
             (User.id current_user) in
  submit_expense amount currency category description utcnow current_user db
  = (Return (mkSubmit (Expense.id e) "submitted"),
     mkDB (users db) (expenses db ++ [e])
       (approvals db ++
          [ApprovalRequest.mk (next_id (ApprovalRequest.id <$> approvals db))
             "pending" 1 (Expense.id e) m])
       (rules db)).
Proof.
  intros Hrules Hmgr Hm Hnan e. rewrite submit_expense_unfold by done.
  rewrite Hrules, Hmgr. cbn [truthy int_of default].
  apply Z.eqb_neq in Hm. rewrite Hm. reflexivity.
Qed.

Lemma submit_expense_manager_fallback_witness :
  submit_expense 80%float "EUR" "meals" "team lunch" 1700000000 frank db_no_rules
  = (Return (mkSubmit 1 "submitted"),
     mkDB acme_users
       [Expense.mk 1 80%float "EUR" "meals" "team lunch" 1700000000 7]
       [ApprovalRequest.mk 1 "pending" 1 1 2]
       []).
Proof.
  apply (submit_expense_manager_fallback 80%float "EUR" "meals" "team lunch"
           1700000000 frank db_no_rules 2);
    [reflexivity | reflexivity | lia | reflexivity].
Defined.

(** C7, as stated, fails: alice has no manager and her company no rule; her
    expense gets no request, but the status handed back is [submitted], not
    [auto_approved], and the stored expense row has no status either. *)
Lemma unapproved_expense_is_only_submitted :
  User.manager_id alice = None ∧ rules db_no_rules = [] ∧
  alice_submits db_no_rules
  = (Return (mkSubmit 1 "submitted"),
     mkDB acme_users
       [Expense.mk 1 12.5%float "USD" "travel" "taxi" 1700000000 5] [] []) ∧
  sr_status (mkSubmit 1 "submitted") ≠ "auto_approved".
Proof. repeat split; try reflexivity. discriminate. Qed.

(** C7, amended: when the submitter's company has no rule and the submitter
    has no manager, [submit_expense] of an amount that is a number (not NaN)
    stores the expense, creates no request and returns the status
    [submitted]; nothing marks the expense as approved. *)
Theorem submit_expense_without_approver amount currency category description
    utcnow current_user db :
  filter (λ r, ApprovalRule.company_id r = User.company_id current_user)
    (rules db) = [] →
  truthy (User.manager_id current_user) = false →
  is_nan amount = false →
  let e := Expense.mk (next_id (Expense.id <$> expenses db))
             (sqlite_real amount) currency category description utcnow
             (User.id current_user) in
  submit_expense amount currency category description utcnow current_user db
  = (Return (mkSubmit (Expense.id e) "submitted"),
     mkDB (users db) (expenses db ++ [e]) (approvals db) (rules db)).
Proof.
  intros Hrules Hmgr Hnan e. rewrite submit_expense_unfold by done.
  rewrite Hrules, Hmgr. reflexivity.
Qed.

Lemma submit_expense_without_approver_witness :
  alice_submits db_no_rules
  = (Return (mkSubmit 1 "submitted"),
     mkDB acme_users
       [Expense.mk 1 12.5%float "USD" "travel" "taxi" 1700000000 5] [] []).
Proof.
  apply (submit_expense_without_approver 12.5%float "USD" "travel" "taxi"
           1700000000 alice db_no_rules); reflexivity.
Defined.

(** * The rest of the application *)

(** ** Primary keys *)

Lemma next_id_above ids x : x ∈ ids → x < next_id ids.
Proof.
  unfold next_id. induction 1 as [x l | x y l _ IH]; simpl; lia.
Qed.

Lemma next_id_fresh ids : next_id ids ∉ ids.
Proof. intros Hin. apply next_id_above in Hin. lia. Qed.

Lemma NoDup_next_id ids : NoDup ids → NoDup (ids ++ [next_id ids]).
Proof.
  intros Hnd. apply NoDup_app. split; [done|]. split.
  - intros x Hx Hx'. apply list_elem_of_singleton in Hx' as ->.
    by apply next_id_fresh in Hx.
  - apply NoDup_singleton.
Qed.

Lemma find_snoc {A} (f : A → bool) (l : list A) x :
  (∀ y, y ∈ l → f y = false) → find f (l ++ [x]) = (if f x then Some x else None).
Proof.
  induction l as [|y l IH]; intros Hl; simpl; [done|].
  rewrite (Hl y) by left. apply IH. intros z Hz. apply Hl. by right.
Qed.

Lemma find_elem_of {A} (f : A → bool) (l : list A) x :
  find f l = Some x → x ∈ l ∧ f x = true.
Proof.
  intros H. apply find_some in H as [Hin Hf]. split; [|done].
  by apply list_elem_of_In.
Qed.

Lemma find_none_iff {A} (f : A → bool) (l : list A) :
  find f l = None ↔ ∀ y, y ∈ l → f y = false.
Proof.
  split.
  - intros H y Hy. apply (find_none _ _ H). by apply list_elem_of_In.
  - induction l as [|y l IH]; intros Hl; simpl; [done|].
    rewrite (Hl y) by left. apply IH. intros z Hz. apply Hl. by right.
Qed.

(** Under a unique key, looking a stored row up by its key finds that row. *)
Lemma find_unique_key {A} (key : A → Z) (l : list A) x :
  NoDup (key <$> l) → x ∈ l → find (fun y => key y =? key x) l = Some x.
Proof.
  induction l as [|y l IH]; intros Hnd Hx; [by apply elem_of_nil in Hx|].
  rewrite fmap_cons in Hnd. apply NoDup_cons in Hnd as [Hy Hnd].
  simpl. apply elem_of_cons in Hx as [-> | Hx]; [by rewrite Z.eqb_refl|].
  destruct (key y =? key x) eqn:E; [|by apply IH].
  apply Z.eqb_eq in E. destruct Hy. rewrite E. by apply list_elem_of_fmap_2.
Qed.

Lemma lookup_user_fresh db u :
  User.id u = next_id (User.id <$> users db) →
  find (fun v => User.id v =? User.id u) (users db ++ [u]) = Some u.
Proof.
  intros Hid. rewrite find_snoc; [by rewrite Z.eqb_refl|].
  intros y Hy. apply Z.eqb_neq. intros Heq.
  apply (next_id_fresh (User.id <$> users db)).
  rewrite <- Hid, <- Heq. by apply list_elem_of_fmap_2.
Qed.

(** ** Tokens *)

(** X1: [get_current_user] never changes the state. A token that is not in
    [fake_tokens] raises 401 "Invalid token"; a token whose user id names no
    stored user raises 401 "User not found"; otherwise the stored user of
    that id is returned. *)
Theorem get_current_user_outcomes token app :
  snd (get_current_user token app) = app ∧
  (fake_tokens app !! token = None →
     fst (get_current_user token app) = Raise (mkHTTP 401 "Invalid token")) ∧
  (∀ uid, fake_tokens app !! token = Some uid →
     uid ∉ User.id <$> users (store app) →
     fst (get_current_user token app) = Raise (mkHTTP 401 "User not found")) ∧
  (∀ uid, fake_tokens app !! token = Some uid →
     uid ∈ User.id <$> users (store app) →
     ∃ user, fst (get_current_user token app) = Return user ∧
             user ∈ users (store app) ∧ User.id user = uid).
Proof.
  unfold get_current_user, lookup_user.
  destruct (fake_tokens app !! token) as [uid|] eqn:Htok.
  - destruct (find _ _) as [user|] eqn:Hfind; simpl.
    + split; [done|]. split; [done|]. apply find_elem_of in Hfind as [Hin Hid].
      split.
      * intros ? [= <-] Hnot. destruct Hnot.
        apply Z.eqb_eq in Hid. rewrite <- Hid. by apply list_elem_of_fmap_2.
      * intros ? [= <-] _. exists user. repeat split; [done|lia].
    + split; [done|]. split; [done|]. split; [done|].
      intros ? [= <-] Hin. apply list_elem_of_fmap in Hin as (u & -> & Hu).
      rewrite find_none_iff in Hfind. specialize (Hfind u Hu). simpl in Hfind. lia.
  - simpl. repeat split; done.
Qed.

Lemma get_current_user_outcomes_witness :
  fst (get_current_user "tok-nobody" office) = Raise (mkHTTP 401 "Invalid token") ∧
  ∃ user, fst (get_current_user "tok-eli" office) = Return user ∧
          user ∈ users (store office) ∧ User.id user = 3.
Proof.
  destruct (get_current_user_outcomes "tok-nobody" office) as (_ & Hnone & _).
  destruct (get_current_user_outcomes "tok-eli" office) as (_ & _ & _ & Hsome).
  split.
  - apply Hnone. vm_compute. reflexivity.
  - apply Hsome; [vm_compute; reflexivity|].
    vm_compute. do 2 right. left.
Defined.

(** ** Signing up and logging in *)

Lemma signup_unfold upper company country email password token app :
  let c := Company.mk (next_id (Company.id <$> companies app)) company country
             (default "USD" (currency_map !! upper country)) in
  let admin := User.mk (next_id (User.id <$> users (store app))) email password
                 "admin" (Company.id c) None in
  signup upper company country email password token app
  = (Return (mkSignup company (User.id admin) token),
     mkApp (mkDB (users (store app) ++ [admin]) (expenses (store app))
              (approvals (store app)) (rules (store app)))
       (companies app ++ [c])
       (<[token := User.id admin]> (fake_tokens app))).
Proof. reflexivity. Qed.

Lemma currency_map_default key :
  default "USD" (currency_map !! key) ∈ ["USD"; "INR"; "GBP"].
Proof.
  unfold currency_map. rewrite !lookup_insert.
  repeat case_decide; simpl; rewrite ?lookup_empty; simpl;
    repeat first [by left | right].
Qed.

(** X2: [signup] always returns. It stores a new company whose currency is
    USD, INR or GBP, and a new user with the role admin in that company, under
    an id no stored user has; the token handed back authenticates as that
    admin, and the admin's company is the new one. *)
Theorem signup_token_authenticates upper company country email password token app :
  ∃ admin c app',
    signup upper company country email password token app
      = (Return (mkSignup company (User.id admin) token), app') ∧
    get_current_user token app' = (Return admin, app') ∧
    admin = User.mk (User.id admin) email password "admin" (Company.id c) None ∧
    (User.id admin ∉ User.id <$> users (store app)) ∧
    company_of admin app' = Some c ∧
    Company.name c = company ∧ Company.country c = country ∧
    Company.currency c ∈ ["USD"; "INR"; "GBP"] ∧
    (Company.id c ∉ Company.id <$> companies app).
Proof.
  rewrite signup_unfold. cbv zeta.
  remember (Company.mk (next_id (Company.id <$> companies app)) company country
              (default "USD" (currency_map !! upper country))) as c eqn:Hc.
  remember (User.mk (next_id (User.id <$> users (store app))) email password
              "admin" (Company.id c) None) as admin eqn:Hadmin.
  assert (Hid : User.id admin = next_id (User.id <$> users (store app)))
    by by subst admin.
  assert (Hcid : Company.id c = next_id (Company.id <$> companies app))
    by by subst c.
  exists admin, c. eexists. split; [reflexivity|]. split; [|split].
  - unfold get_current_user. cbn [fake_tokens store].
    rewrite lookup_insert_eq. unfold lookup_user. cbn [users].
    by rewrite lookup_user_fresh.
  - by subst admin.
  - split; [rewrite Hid; apply next_id_fresh|]. split.
    + unfold company_of. cbn [companies].
      replace (User.company_id admin) with (Company.id c) by by subst admin.
      rewrite find_snoc; [by rewrite Z.eqb_refl|].
      intros y Hy. apply Z.eqb_neq. intros Heq.
      apply (next_id_fresh (Company.id <$> companies app)).
      rewrite <- Hcid, <- Heq. by apply list_elem_of_fmap_2.
    + split; [by subst c|]. split; [by subst c|]. split.
      * subst c. apply currency_map_default.
      * rewrite Hcid. apply next_id_fresh.
Qed.

(** X3: [login] raises 400 "Invalid credentials", leaving the state as it
    was, exactly when no stored user has both that email and that password. *)
Theorem login_invalid_credentials email password token app :
  (login email password token app
     = (Raise (mkHTTP 400 "Invalid credentials"), app))
  ↔ (∀ u, u ∈ users (store app) →
          ¬ (User.email u = email ∧ User.password u = password)).
Proof.
  unfold login.
  destruct (find _ _) as [user|] eqn:Hfind.
  - split; [discriminate|]. intros Hnone.
    apply find_elem_of in Hfind as [Hin Hmatch].
    apply bool_decide_eq_true in Hmatch. by destruct (Hnone user Hin).
  - split; [|done]. intros _ u Hu Hmatch.
    rewrite find_none_iff in Hfind. specialize (Hfind u Hu). simpl in Hfind.
    by apply bool_decide_eq_false in Hfind.
Qed.

(** X4: when user ids are unique and some stored user has that email and
    password, [login] returns the id and role of a stored user with that
    email and password, changes nothing but the entry of [token] in
    [fake_tokens], and the token then authenticates as that user. *)
Theorem login_token_authenticates email password token app u :
  NoDup (User.id <$> users (store app)) →
  u ∈ users (store app) →
  User.email u = email → User.password u = password →
  ∃ user app',
    login email password token app
      = (Return (mkLogin (User.id user) (User.role user) token), app') ∧
    user ∈ users (store app) ∧
    User.email user = email ∧ User.password user = password ∧
    get_current_user token app' = (Return user, app') ∧
    store app' = store app ∧ companies app' = companies app ∧
    ∀ t, t ≠ token → fake_tokens app' !! t = fake_tokens app !! t.
Proof.
  intros Hnd Hu Hemail Hpw. unfold login.
  destruct (find _ _) as [user|] eqn:Hfind.
  - apply find_elem_of in Hfind as [Hin Hmatch].
    apply bool_decide_eq_true in Hmatch as [He Hp].
    eexists user, _. split; [reflexivity|].
    repeat split; try done.
    + unfold get_current_user. cbn [fake_tokens store].
      rewrite lookup_insert_eq. unfold lookup_user.
      by rewrite (find_unique_key User.id _ user Hnd Hin).
    + intros t Hne. cbn [fake_tokens]. by rewrite lookup_insert_ne.
  - rewrite find_none_iff in Hfind. specialize (Hfind u Hu). simpl in Hfind.
    apply bool_decide_eq_false in Hfind. by destruct Hfind.
Qed.

Lemma login_token_authenticates_witness :
  ∃ user app',
    login "eli@acme.test" "pw-eli" "tok-new" office
      = (Return (mkLogin (User.id user) (User.role user) "tok-new"), app') ∧
    user ∈ users (store office) ∧
    User.email user = "eli@acme.test" ∧ User.password user = "pw-eli" ∧
    get_current_user "tok-new" app' = (Return user, app') ∧
    store app' = store office ∧ companies app' = companies office ∧
    ∀ t, t ≠ "tok-new" → fake_tokens app' !! t = fake_tokens office !! t.
Proof.
  apply (login_token_authenticates "eli@acme.test" "pw-eli" "tok-new" office eli);
    try reflexivity.
  - compute_done.
  - vm_compute. do 2 right. left.
Defined.

Lemma login_invalid_credentials_witness :
  login "eli@acme.test" "guess" "tok-new" office
    = (Raise (mkHTTP 400 "Invalid credentials"), office).
Proof.
  apply login_invalid_credentials. intros u Hu [_ Hpw].
  vm_compute in Hu. 
  repeat (apply elem_of_cons in Hu as [-> | Hu]; [discriminate Hpw|]).
  by apply elem_of_nil in Hu.
Defined.

(** ** Creating users *)

(** X5: a caller whose role is not [admin] can neither create users nor list
    the company's expenses: both routes raise 403, and the store is left as it
    was. *)
Theorem admin_only_routes current_user :
  User.role current_user ≠ UserRole.ADMIN →
  (∀ email password role manager_id db,
     create_user email password role manager_id current_user db
       = (Raise (mkHTTP 403 "Only admin can create users"), db)) ∧
  (∀ app,
     list_company_expenses current_user app
       = Responded (Raise (mkHTTP 403 "Only admin can view company expenses"))).
Proof.
  intros Hrole. split; intros.
  - unfold create_user. by rewrite bool_decide_eq_false_2.
  - unfold list_company_expenses. by rewrite bool_decide_eq_false_2.
Qed.

Lemma admin_only_routes_witness :
  create_user "zoe@acme.test" "pw" "admin" None eli (store office)
    = (Raise (mkHTTP 403 "Only admin can create users"), store office) ∧
  list_company_expenses eli office
    = Responded (Raise (mkHTTP 403 "Only admin can view company expenses")).
Proof.
  assert (Hrole : User.role eli ≠ UserRole.ADMIN) by discriminate.
  destruct (admin_only_routes eli Hrole) as [Hcreate Hlist].
  split; [apply Hcreate | apply Hlist].
Defined.

(** X6: an admin's [create_user] with a manager id that is absent or a 64-bit
    integer returns. The new user is stored under an id no stored user has,
    in the admin's own company, with the email, password, role and manager id
    as given; nothing else changes. The new user can then log in: [login]
    with that email and password returns. *)
Theorem create_user_then_login email password role manager_id current_user
    token app :
  User.role current_user = UserRole.ADMIN →
  from_option is_int64 true manager_id = true →
  ∃ new_user app',
    in_session (create_user email password role manager_id current_user) app
      = (Return (mkCreated (User.id new_user) email role), app') ∧
    new_user = User.mk (next_id (User.id <$> users (store app))) email password
                 role (User.company_id current_user) manager_id ∧
    store app' = mkDB (users (store app) ++ [new_user]) (expenses (store app))
                   (approvals (store app)) (rules (store app)) ∧
    companies app' = companies app ∧ fake_tokens app' = fake_tokens app ∧
    ∃ user app'',
      login email password token app'
        = (Return (mkLogin (User.id user) (User.role user) token), app'') ∧
      User.email user = email ∧ User.password user = password.
Proof.
  intros Hrole Hrange. eexists _, _. split; [|split; [reflexivity|]].
  - unfold in_session, create_user. rewrite bool_decide_eq_true_2 by done.
    cbn [negb]. unfold bind, add_user. rewrite Hrange. reflexivity.
  - cbn [store companies fake_tokens]. repeat split.
    unfold login. cbn [store users].
    destruct (find _ _) as [user|] eqn:Hfind.
    + apply find_elem_of in Hfind as [_ Hmatch].
      apply bool_decide_eq_true in Hmatch as [He Hp].
      by eexists user, _.
    + rewrite find_none_iff in Hfind.
      specialize (Hfind (User.mk (next_id (User.id <$> users (store app)))
                           email password role
                           (User.company_id current_user) manager_id)).
      rewrite bool_decide_eq_true_2 in Hfind by done.
      discriminate Hfind. apply elem_of_app. right. left.
Qed.

Lemma create_user_then_login_witness :
  ∃ new_user app',
    in_session (create_user "zoe@acme.test" "pw-zoe" "employee" (Some 2) root) office
      = (Return (mkCreated (User.id new_user) "zoe@acme.test" "employee"), app') ∧
    new_user = User.mk 4 "zoe@acme.test" "pw-zoe" "employee" 1 (Some 2) ∧
    ∃ user app'',
      login "zoe@acme.test" "pw-zoe" "tok-zoe" app'
        = (Return (mkLogin (User.id user) (User.role user) "tok-zoe"), app'') ∧
      User.email user = "zoe@acme.test" ∧ User.password user = "pw-zoe".
Proof.
  destruct (create_user_then_login "zoe@acme.test" "pw-zoe" "employee" (Some 2)
              root "tok-zoe" office eq_refl eq_refl)
    as (new_user & app' & Hrun & Hnew & _ & _ & _ & Hlogin).
  exists new_user, app'. split; [exact Hrun|]. split; [exact Hnew | exact Hlogin].
Defined.

(** ** Submitting an expense, whatever the rules *)

Lemma add_approval_keys step expense_id approver_id db :
  NoDup (ApprovalRequest.id <$> approvals db) →
  NoDup (ApprovalRequest.id <$>
           approvals (after (add_approval step expense_id approver_id) db)).
Proof.
  intros Hnd. unfold after, add_approval. cbn [snd approvals].
  rewrite fmap_app. by apply NoDup_next_id.
Qed.

Lemma for_each_rule_keys expense_id (rs : list ApprovalRule.t) db :
  NoDup (ApprovalRequest.id <$> approvals db) →
  NoDup (ApprovalRequest.id <$> approvals (after
    (for_each rs (fun rule =>
       if truthy (ApprovalRule.approver_id rule)
       then add_approval (ApprovalRule.step rule) expense_id
              (int_of (ApprovalRule.approver_id rule))
       else ret tt)) db)).
Proof.
  revert db. induction rs as [|rule rs IH]; intros db Hnd; [done|].
  unfold after. simpl. unfold bind at 1.
  destruct (truthy (ApprovalRule.approver_id rule)).
  - apply (IH _ (add_approval_keys (ApprovalRule.step rule) expense_id
                   (int_of (ApprovalRule.approver_id rule)) db Hnd)).
  - by apply IH.
Qed.

(** What either branch of [submit_expense] adds to the request table. *)
Lemma submit_expense_requests expense_id (rs : list ApprovalRule.t)
    (manager_id : option Z) db :
  ∃ news,
    (if bool_decide (rs = []) && truthy manager_id
     then add_approval 1 expense_id (int_of manager_id)
     else for_each rs (fun rule =>
            if truthy (ApprovalRule.approver_id rule)
            then add_approval (ApprovalRule.step rule) expense_id
                   (int_of (ApprovalRule.approver_id rule))
            else ret tt)) db
    = (Return tt, mkDB (users db) (expenses db) (approvals db ++ news) (rules db)) ∧
    (∀ a, a ∈ news → ApprovalRequest.status a = "pending"
                     ∧ ApprovalRequest.expense_id a = expense_id) ∧
    (NoDup (ApprovalRequest.id <$> approvals db) →
     NoDup (ApprovalRequest.id <$> (approvals db ++ news)%list)).
Proof.
  destruct (bool_decide (rs = []) && truthy manager_id).
  - eexists [_]. split; [reflexivity|]. split.
    + intros a Ha. by apply list_elem_of_singleton in Ha as ->.
    + intros Hnd. rewrite fmap_app. by apply NoDup_next_id.
  - destruct (for_each_rule_requests expense_id rs db) as (news & Hrun & Hcols).
    exists news. split; [exact Hrun|]. split.
    + intros a Ha.
      apply (list_elem_of_fmap_2 columns) in Ha. rewrite Hcols in Ha.
      apply list_elem_of_fmap in Ha as (r & Heq & _).
      unfold columns in Heq. by injection Heq as -> _ -> _.
    + intros Hnd. apply (for_each_rule_keys expense_id rs) in Hnd.
      unfold after in Hnd. by rewrite Hrun in Hnd.
Qed.

(** The shape of the store after a [submit_expense] that the store takes,
    whatever branch it goes through. *)
Lemma submit_expense_shape amount currency category description utcnow
    current_user db :
  is_nan amount = false →
  ∃ e news,
    e = Expense.mk (next_id (Expense.id <$> expenses db)) (sqlite_real amount)
          currency category description utcnow (User.id current_user) ∧
    submit_expense amount currency category description utcnow current_user db
    = (Return (mkSubmit (Expense.id e) "submitted"),
       mkDB (users db) (expenses db ++ [e]) (approvals db ++ news) (rules db)) ∧
    (Expense.id e ∉ Expense.id <$> expenses db) ∧
    (∀ a, a ∈ news → ApprovalRequest.status a = "pending"
                     ∧ ApprovalRequest.expense_id a = Expense.id e) ∧
    (NoDup (ApprovalRequest.id <$> approvals db) →
     NoDup (ApprovalRequest.id <$> (approvals db ++ news)%list)).
Proof.
  intros Hnan. eexists. rewrite submit_expense_unfold by done.
  cbv zeta. cbn [Expense.id].
  match goal with |- context [(if ?c then ?m1 else for_each ?rs ?body) ?d] =>
    destruct (submit_expense_requests
                (next_id (Expense.id <$> expenses db)) rs
                (User.manager_id current_user) d)
      as (news & Hrun & Hnews & Hkeys) end.
  exists news. split; [reflexivity|]. cbn [Expense.id].
  rewrite Hrun. split; [done|]. split; [apply next_id_fresh|]. by split.
Qed.

(** X7: [submit_expense] has two outcomes, whatever the rules and the
    submitter are. For a NaN amount it raises [IntegrityError] and the store
    is unchanged: no expense, no request. For any other amount it returns
    with the status [submitted]: it appends one expense, owned by the caller,
    under an id no stored expense has, with the amount as the store reads it
    back ([-0.0] as [0.0]), and appends requests that are all pending and all
    point to that expense; users, rules and the rows already stored are left
    as they were, and request ids stay unique. *)
Theorem submit_expense_appends amount currency category description utcnow
    current_user db :
  (is_nan amount = true →
   submit_expense amount currency category description utcnow current_user db
   = (Raise IntegrityError, db)) ∧
  (is_nan amount = false →
   ∃ e news,
    e = Expense.mk (next_id (Expense.id <$> expenses db)) (sqlite_real amount)
          currency category description utcnow (User.id current_user) ∧
    submit_expense amount currency category description utcnow current_user db
    = (Return (mkSubmit (Expense.id e) "submitted"),
       mkDB (users db) (expenses db ++ [e]) (approvals db ++ news) (rules db)) ∧
    (Expense.id e ∉ Expense.id <$> expenses db) ∧
    (∀ a, a ∈ news → ApprovalRequest.status a = "pending"
                     ∧ ApprovalRequest.expense_id a = Expense.id e) ∧
    (NoDup (ApprovalRequest.id <$> approvals db) →
     NoDup (ApprovalRequest.id <$> (approvals db ++ news)%list))).
Proof.
  split; [apply submit_expense_nan | apply submit_expense_shape].
Qed.

Lemma submit_expense_appends_witness :
  submit_expense nan "USD" "travel" "taxi" 1700000000 alice db_two_steps
    = (Raise IntegrityError, db_two_steps) ∧
  ∃ e news,
    e = Expense.mk 1 0%float "USD" "travel" "taxi" 1700000000 5 ∧
    submit_expense (-0)%float "USD" "travel" "taxi" 1700000000 alice db_two_steps
    = (Return (mkSubmit (Expense.id e) "submitted"),
       mkDB acme_users [e] news (rules db_two_steps)) ∧
    (∀ a, a ∈ news → ApprovalRequest.status a = "pending"
                     ∧ ApprovalRequest.expense_id a = Expense.id e).
Proof.
  split.
  - apply (submit_expense_appends nan "USD" "travel" "taxi" 1700000000 alice
             db_two_steps). reflexivity.
  - destruct (submit_expense_appends (-0)%float "USD" "travel" "taxi"
                1700000000 alice db_two_steps)
      as (_ & Hok).
    destruct (Hok eq_refl) as (e & news & He & Hrun & _ & Hnews & _).
    exists e, news. subst e. repeat split; [exact Hrun | apply Hnews ..]; done.
Defined.

(** X8: when the company has rules but none of them names an approver,
    [submit_expense] of an amount that is a number (not NaN) stores the
    expense and creates no request at all, also for a submitter who has a
    manager: the manager fallback is taken only when the company has no
    rule. *)
Theorem submit_expense_rules_without_approver amount currency category
    description utcnow current_user db :
  filter (λ r, ApprovalRule.company_id r = User.company_id current_user)
    (rules db) ≠ [] →
  (∀ r, r ∈ rules db →
        ApprovalRule.company_id r = User.company_id current_user →
        truthy (ApprovalRule.approver_id r) = false) →
  is_nan amount = false →
  let e := Expense.mk (next_id (Expense.id <$> expenses db))
             (sqlite_real amount) currency category description utcnow
             (User.id current_user) in
  submit_expense amount currency category description utcnow current_user db
  = (Return (mkSubmit (Expense.id e) "submitted"),
     mkDB (users db) (expenses db ++ [e]) (approvals db) (rules db)).
Proof.
  intros Hrules Hnone Hnan e. rewrite submit_expense_unfold by done. cbv zeta.
  rewrite bool_decide_eq_false_2 by done. cbn [andb Expense.id].
  match goal with |- context [for_each ?rs ?body ?d] =>
    destruct (for_each_rule_requests
                (next_id (Expense.id <$> expenses db)) rs d)
      as (news & Hloop & Hcols) end.
  cbn [Expense.id] in *. rewrite Hloop.
  assert (Hempty : filter (λ r, truthy (ApprovalRule.approver_id r))
            (filter (λ r, ApprovalRule.company_id r = User.company_id current_user)
               (rules db)) = []).
  { destruct (filter _ (filter _ _)) as [|r l] eqn:E; [done|].
    assert (Hr : r ∈ r :: l) by left. rewrite <- E in Hr.
    apply list_elem_of_filter in Hr as [Ht Hr].
    apply list_elem_of_filter in Hr as [Hc Hr].
    rewrite (Hnone r Hr Hc) in Ht. done. }
  rewrite Hempty in Hcols. apply fmap_nil_inv in Hcols as ->.
  cbn [users expenses approvals rules]. by rewrite app_nil_r.
Qed.

Lemma submit_expense_rules_without_approver_witness :
  submit_expense 9.5%float "EUR" "meals" "lunch" 1700000000 frank
    (with_rules db_no_rules [ApprovalRule.mk 1 1 1 None (Some 50%float) true])
  = (Return (mkSubmit 1 "submitted"),
     mkDB acme_users
       [Expense.mk 1 9.5%float "EUR" "meals" "lunch" 1700000000 7] []
       [ApprovalRule.mk 1 1 1 None (Some 50%float) true]).
Proof.
  apply (submit_expense_rules_without_approver 9.5%float "EUR" "meals" "lunch"
           1700000000 frank
           (with_rules db_no_rules
              [ApprovalRule.mk 1 1 1 None (Some 50%float) true])).
  - vm_compute. discriminate.
  - intros r Hr _. apply list_elem_of_singleton in Hr as ->. reflexivity.
  - reflexivity.
Defined.

(** ** Listing one's requests *)

(** X9: in a company without rules, after an employee whose manager is
    [manager] has submitted an expense whose amount is a number (not NaN),
    the manager's [get_approvals] returns what it returned before followed by
    the one new request, pending, at step 1, for the new expense. *)
Theorem manager_lists_new_request amount currency category description utcnow
    current_user manager db :
  filter (λ r, ApprovalRule.company_id r = User.company_id current_user)
    (rules db) = [] →
  User.manager_id current_user = Some (User.id manager) →
  User.id manager ≠ 0 →
  is_nan amount = false →
  ∃ before db',
    get_approvals manager db = (Return before, db) ∧
    submit_expense amount currency category description utcnow current_user db
      = (Return (mkSubmit (next_id (Expense.id <$> expenses db)) "submitted"), db') ∧
    get_approvals manager db'
      = (Return (before ++
           [ApprovalRequest.mk (next_id (ApprovalRequest.id <$> approvals db))
              "pending" 1 (next_id (Expense.id <$> expenses db))
              (User.id manager)])%list, db').
Proof.
  intros Hrules Hmgr Hm Hnan. eexists _, _. split; [reflexivity|].
  rewrite submit_expense_unfold by done. cbv zeta.
  rewrite Hrules, Hmgr. cbn [truthy int_of default].
  apply Z.eqb_neq in Hm. rewrite Hm. cbn [negb andb bool_decide].
  split; [reflexivity|].
  unfold get_approvals. cbn [approvals]. f_equal. f_equal.
  rewrite filter_app. f_equal. by rewrite filter_cons_True.
Qed.

Lemma manager_lists_new_request_witness :
  ∃ before db',
    get_approvals bob db_no_rules = (Return before, db_no_rules) ∧
    submit_expense 80%float "EUR" "meals" "team lunch" 1700000000 frank db_no_rules
      = (Return (mkSubmit 1 "submitted"), db') ∧
    get_approvals bob db'
      = (Return (before ++ [ApprovalRequest.mk 1 "pending" 1 1 2])%list, db').
Proof.
  apply (manager_lists_new_request 80%float "EUR" "meals" "team lunch"
           1700000000 frank bob db_no_rules);
    [reflexivity | reflexivity | | reflexivity].
  simpl. lia.
Defined.

Lemma restatus_approver approval_id action a :
  ApprovalRequest.approver_id (restatus approval_id action a)
  = ApprovalRequest.approver_id a.
Proof. unfold restatus. by destruct (_ =? _). Qed.

Lemma filter_approver_restatus approval_id action uid
    (l : list ApprovalRequest.t) :
  filter (λ a, ApprovalRequest.approver_id a = uid)
    (restatus approval_id action <$> l)
  = restatus approval_id action <$>
      filter (λ a, ApprovalRequest.approver_id a = uid) l.
Proof.
  induction l as [|b l IH]; [done|].
  rewrite fmap_cons, !filter_cons, restatus_approver, IH.
  by case_decide.
Qed.

(** X10: [get_approvals] lists resolved requests as well as pending ones.
    After a call of [act_on_approval] that returns, every user's listing holds
    the same requests in the same order as before, the one acted on now with
    the action as its status. *)
Theorem get_approvals_keeps_resolved approval_id action current_user db r db'
    approver :
  act_on_approval approval_id action current_user db = (Return r, db') →
  ∃ before,
    get_approvals approver db = (Return before, db) ∧
    get_approvals approver db'
      = (Return (restatus approval_id action <$> before), db').
Proof.
  intros Hrun.
  apply act_on_approval_inv in Hrun as (a & _ & _ & _ & _ & ->).
  eexists. split; [reflexivity|].
  unfold get_approvals. cbn [approvals]. f_equal. f_equal.
  apply filter_approver_restatus.
Qed.

Lemma get_approvals_keeps_resolved_witness :
  ∃ before,
    get_approvals bob db_submitted = (Return before, db_submitted) ∧
    get_approvals bob db_approved
      = (Return (restatus 1 "approved" <$> before), db_approved).
Proof.
  exact (get_approvals_keeps_resolved 1 "approved" bob db_submitted
           (mkAct 1 "approved") db_approved bob eq_refl).
Defined.

(** ** Acting on requests, under unique request ids *)

Lemma restatus_insert approval_id action (l : list ApprovalRequest.t) i a :
  NoDup (ApprovalRequest.id <$> l) →
  l !! i = Some a → ApprovalRequest.id a = approval_id →
  restatus approval_id action <$> l
  = <[i := ApprovalRequest.set_status a action]> l.
Proof.
  intros Hnd Hi Hid. apply list_eq. intros j.
  rewrite list_lookup_fmap.
  destruct (decide (i = j)) as [<- | Hne].
  - rewrite list_lookup_insert_eq by (by eapply lookup_lt_Some).
    rewrite Hi. simpl. by rewrite restatus_self.
  - rewrite list_lookup_insert_ne by done.
    destruct (l !! j) as [b|] eqn:Hj; [|done]. simpl. f_equal.
    apply restatus_other. intros Hb. apply Hne.
    apply (NoDup_lookup (ApprovalRequest.id <$> l) i j approval_id Hnd);
      rewrite list_lookup_fmap.
    + by rewrite Hi, <- Hid.
    + by rewrite Hj, <- Hb.
Qed.

(** X11: when request ids are unique, a call of [act_on_approval] that
    returns rewrites exactly one position of the request table: the row with
    the given id, whose approver is the caller, gets the action as its
    status. *)
Theorem act_on_approval_one_row approval_id action current_user db r db' :
  NoDup (ApprovalRequest.id <$> approvals db) →
  act_on_approval approval_id action current_user db = (Return r, db') →
  ∃ (i : nat) a,
    approvals db !! i = Some a ∧
    ApprovalRequest.id a = approval_id ∧
    ApprovalRequest.approver_id a = User.id current_user ∧
    approvals db' = <[i := ApprovalRequest.set_status a action]> (approvals db).
Proof.
  intros Hnd Hrun.
  apply act_on_approval_inv in Hrun as (a & Hfind & Hown & _ & _ & ->).
  pose proof (lookup_approval_id _ _ _ Hfind) as Hid.
  apply lookup_approval_elem_of in Hfind as Hin.
  apply list_elem_of_lookup in Hin as [i Hi].
  exists i, a. repeat split; try done.
  cbn [approvals]. by apply restatus_insert.
Qed.

Lemma act_on_approval_one_row_witness :
  ∃ (i : nat) a,
    approvals db_submitted !! i = Some a ∧
    ApprovalRequest.id a = 1 ∧
    ApprovalRequest.approver_id a = User.id bob ∧
    approvals db_approved
      = <[i := ApprovalRequest.set_status a "approved"]> (approvals db_submitted).
Proof.
  apply (act_on_approval_one_row 1 "approved" bob db_submitted
           (mkAct 1 "approved") db_approved); [compute_done | reflexivity].
Defined.

Lemma restatus_comm id1 action1 id2 action2 a :
  id1 ≠ id2 →
  restatus id2 action2 (restatus id1 action1 a)
  = restatus id1 action1 (restatus id2 action2 a).
Proof.
  intros Hne. unfold restatus.
  destruct (ApprovalRequest.id a =? id1) eqn:E1;
    destruct (ApprovalRequest.id a =? id2) eqn:E2;
    cbn [ApprovalRequest.set_status ApprovalRequest.id];
    rewrite ?E1, ?E2; try done.
  lia.
Qed.

(** A request acted on is looked up unchanged after another request was
    rewritten. *)
Lemma lookup_approval_restatus_other id1 action1 id2 db :
  id1 ≠ id2 →
  lookup_approval id2
    (mkDB (users db) (expenses db)
       (restatus id1 action1 <$> approvals db) (rules db))
  = lookup_approval id2 db.
Proof.
  intros Hne. unfold lookup_approval. cbn [approvals].
  destruct (is_int64 id2); [|done].
  induction (approvals db) as [|b l IH]; [done|].
  rewrite fmap_cons. cbn [find]. rewrite restatus_id.
  destruct (ApprovalRequest.id b =? id2) eqn:E; [|exact IH].
  f_equal. apply restatus_other. lia.
Qed.

(** X12: calls of [act_on_approval] on two different requests commute: if
    each returns on the store as it is, then each still returns, with the same
    response, after the other, and both orders leave the same store. *)
Theorem actions_on_distinct_requests_commute id1 action1 user1 id2 action2
    user2 db r1 db1 r2 db2 :
  id1 ≠ id2 →
  act_on_approval id1 action1 user1 db = (Return r1, db1) →
  act_on_approval id2 action2 user2 db = (Return r2, db2) →
  ∃ db12,
    act_on_approval id2 action2 user2 db1 = (Return r2, db12) ∧
    act_on_approval id1 action1 user1 db2 = (Return r1, db12).
Proof.
  intros Hne Hrun1 Hrun2.
  apply act_on_approval_inv in Hrun1 as (a1 & Hfind1 & Hown1 & Hact1 & -> & ->).
  apply act_on_approval_inv in Hrun2 as (a2 & Hfind2 & Hown2 & Hact2 & -> & ->).
  eexists. split.
  - apply (act_on_approval_returns _ _ _ _ a2); [|done|done].
    by rewrite lookup_approval_restatus_other.
  - rewrite (act_on_approval_returns _ _ _ _ a1); [|by rewrite
      lookup_approval_restatus_other|done|done].
    cbn [users expenses approvals rules]. do 2 f_equal.
    rewrite <- !list_fmap_compose. apply list_fmap_ext.
    intros i a _. simpl. by apply restatus_comm.
Qed.

Lemma actions_on_distinct_requests_commute_witness :
  ∃ db12,
    act_on_approval 2 "rejected" carol db_approved
      = (Return (mkAct 2 "rejected"), db12) ∧
    act_on_approval 1 "approved" bob
        (after (act_on_approval 2 "rejected" carol) db_submitted)
      = (Return (mkAct 1 "approved"), db12).
Proof.
  apply (actions_on_distinct_requests_commute 1 "approved" bob 2 "rejected"
           carol db_submitted);
    [lia | reflexivity | reflexivity].
Defined.

(** ** The routes behind the bearer token *)

Open Scope list_scope.

Lemma authenticated_unfold {A} token (route : User.t → Handler A) app :
  authenticated token route app =
  match fake_tokens app !! token with
  | None => (Raise (mkHTTP 401 "Invalid token"), app)
  | Some user_id =>
      match lookup_user user_id (store app) with
      | None => (Raise (mkHTTP 401 "User not found"), app)
      | Some user => route user app
      end
  end.
Proof.
  unfold authenticated, hbind, get_current_user.
  destruct (fake_tokens app !! token); [|done].
  by destruct (lookup_user _ _).
Qed.

Lemma in_session_snd {A} (m : Session A) app :
  snd (in_session m app)
  = mkApp (snd (m (store app))) (companies app) (fake_tokens app).
Proof. unfold in_session. by destruct (m (store app)). Qed.

Lemma in_session_fst {A} (m : Session A) app :
  fst (in_session m app) = fst (m (store app)).
Proof. unfold in_session. by destruct (m (store app)). Qed.

(** X13: without a token that is in [fake_tokens], a route that depends on
    [get_current_user] raises 401 "Invalid token" before its body runs; such
    a call to create a user, submit an expense, list one's requests or act on
    a request leaves the state of the process as it was. *)
Theorem unknown_token_changes_nothing upper auth app :
  fake_tokens app !! auth = None →
  (∀ A (route : User.t → Handler A),
     authenticated auth route app = (Raise (mkHTTP 401 "Invalid token"), app)) ∧
  (∀ email password role manager_id,
     serve upper (CreateUser auth email password role manager_id) app = app) ∧
  (∀ amount currency category description utcnow,
     serve upper (SubmitExpense auth amount currency category description utcnow)
       app = app) ∧
  serve upper (GetApprovals auth) app = app ∧
  (∀ approval_id action,
     serve upper (ActOnApproval auth approval_id action) app = app).
Proof.
  intros Hnone.
  assert (Hauth : ∀ A (route : User.t → Handler A),
            authenticated auth route app
            = (Raise (mkHTTP 401 "Invalid token"), app)).
  { intros. by rewrite authenticated_unfold, Hnone. }
  split; [exact Hauth|].
  repeat split; intros; unfold serve; by rewrite Hauth.
Qed.

Lemma unknown_token_changes_nothing_witness :
  serve ascii_upper (SubmitExpense "tok-nobody" 5%float "USD" "travel" "bus" 1700000000)
    office = office ∧
  serve ascii_upper (ActOnApproval "tok-nobody" 1 "approved") office = office.
Proof.
  destruct (unknown_token_changes_nothing ascii_upper "tok-nobody" office)
    as (_ & _ & Hsubmit & _ & Hact); [vm_compute; reflexivity|].
  split; [apply Hsubmit | apply Hact].
Defined.

(** ** Consistency of the reachable states *)

Lemma lookup_user_elem_of user_id db user :
  lookup_user user_id db = Some user →
  user ∈ users db ∧ User.id user = user_id.
Proof.
  unfold lookup_user. intros H. apply find_elem_of in H as [Hin Hid].
  split; [done|lia].
Qed.

Lemma consistent_authenticated {A} token (route : User.t → Handler A) app :
  consistent app →
  (∀ user, user ∈ users (store app) → consistent (snd (route user app))) →
  consistent (snd (authenticated token route app)).
Proof.
  intros Happ Hroute. rewrite authenticated_unfold.
  destruct (fake_tokens app !! token); [|done].
  destruct (lookup_user _ _) as [user|] eqn:Hu; [|done].
  apply Hroute. by apply lookup_user_elem_of in Hu as [Hin _].
Qed.

Lemma elem_of_snoc {A} (l : list A) x y : y ∈ l ++ [x] ↔ y ∈ l ∨ y = x.
Proof. by rewrite elem_of_app, list_elem_of_singleton. Qed.

Lemma consistent_signup upper company country email password token app :
  consistent app →
  consistent (snd (signup upper company country email password token app)).
Proof.
  intros [Hu He Ha Hc Huc Htu Heu Hae].
  rewrite signup_unfold. cbv zeta. cbn [snd].
  constructor; cbn [store users expenses approvals companies fake_tokens];
    try done.
  - rewrite fmap_app. by apply NoDup_next_id.
  - rewrite fmap_app. by apply NoDup_next_id.
  - intros u Hin. rewrite fmap_app. apply elem_of_app.
    apply elem_of_snoc in Hin as [Hin | ->]; [left; by apply Huc|].
    right. left.
  - intros t uid Ht. rewrite fmap_app. apply elem_of_app.
    apply lookup_insert_Some in Ht as [[_ <-] | [_ Ht]].
    + right. left.
    + left. by apply (Htu t).
  - intros e Hin. rewrite fmap_app. apply elem_of_app. left. by apply Heu.
Qed.

Lemma consistent_login email password token app :
  consistent app → consistent (snd (login email password token app)).
Proof.
  intros [Hu He Ha Hc Huc Htu Heu Hae]. unfold login.
  destruct (find _ _) as [user|] eqn:Hfind; [|done].
  apply find_elem_of in Hfind as [Hin _].
  constructor; cbn; try done.
  intros t uid Ht.
  apply lookup_insert_Some in Ht as [[_ <-] | [_ Ht]].
  - by apply list_elem_of_fmap_2.
  - by apply (Htu t).
Qed.

Lemma create_user_unfold email password role manager_id current_user db :
  create_user email password role manager_id current_user db =
  if negb (bool_decide (User.role current_user = UserRole.ADMIN))
  then (Raise (mkHTTP 403 "Only admin can create users"), db)
  else if from_option is_int64 true manager_id
  then
    let u := User.mk (next_id (User.id <$> users db)) email password role
               (User.company_id current_user) manager_id in
    (Return (mkCreated (User.id u) email role),
     mkDB (users db ++ [u]) (expenses db) (approvals db) (rules db))
  else (Raise OverflowError, db).
Proof.
  unfold create_user. destruct (negb (bool_decide _)); [reflexivity|].
  unfold bind, add_user. by destruct (from_option is_int64 true manager_id).
Qed.

Lemma consistent_eta app :
  consistent app →
  consistent (mkApp (store app) (companies app) (fake_tokens app)).
Proof. by destruct app. Qed.

Lemma consistent_create_user email password role manager_id current_user app :
  consistent app → current_user ∈ users (store app) →
  consistent (snd (in_session
    (create_user email password role manager_id current_user) app)).
Proof.
  intros Happ Hcur. rewrite in_session_snd, create_user_unfold.
  destruct (negb (bool_decide _)); [by apply consistent_eta|].
  destruct (from_option is_int64 true manager_id); [|by apply consistent_eta].
  destruct Happ as [Hu He Ha Hc Huc Htu Heu Hae].
  constructor; cbn; try done.
  - rewrite fmap_app. by apply NoDup_next_id.
  - intros u Hin.
    apply elem_of_snoc in Hin as [Hin | ->]; [by apply Huc|].
    cbn [User.company_id]. by apply Huc.
  - intros t uid Ht. rewrite fmap_app. apply elem_of_app. left.
    by apply (Htu t).
  - intros e Hin. rewrite fmap_app. apply elem_of_app. left. by apply Heu.
Qed.

Lemma consistent_submit_expense amount currency category description utcnow
    current_user app :
  consistent app → current_user ∈ users (store app) →
  consistent (snd (in_session
    (submit_expense amount currency category description utcnow current_user)
    app)).
Proof.
  intros Happ Hcur. rewrite in_session_snd.
  destruct (is_nan amount) eqn:Hnan.
  { rewrite submit_expense_nan by done. by apply consistent_eta. }
  destruct Happ as [Hu He Ha Hc Huc Htu Heu Hae].
  destruct (submit_expense_shape amount currency category description utcnow
              current_user (store app) Hnan)
    as (e & news & -> & -> & _ & Hnews & Hkeys).
  constructor; cbn [snd store users expenses approvals companies fake_tokens];
    try done.
  - rewrite fmap_app. by apply NoDup_next_id.
  - by apply Hkeys.
  - intros e Hin.
    apply elem_of_snoc in Hin as [Hin | ->]; [by apply Heu|].
    cbn [Expense.user_id]. by apply list_elem_of_fmap_2.
  - intros a Hin. rewrite fmap_app. apply elem_of_app.
    apply elem_of_app in Hin as [Hin | Hin]; [left; by apply Hae|].
    right. apply Hnews in Hin as [_ ->]. left.
Qed.

Lemma restatus_expense approval_id action a :
  ApprovalRequest.expense_id (restatus approval_id action a)
  = ApprovalRequest.expense_id a.
Proof. unfold restatus. by destruct (_ =? _). Qed.

Lemma consistent_act_on_approval approval_id action current_user app :
  consistent app →
  consistent (snd (in_session
    (act_on_approval approval_id action current_user) app)).
Proof.
  intros Happ. rewrite in_session_snd.
  destruct (act_on_approval approval_id action current_user (store app))
    as [[r|e] db'] eqn:Hrun.
  - apply act_on_approval_inv in Hrun as (a & _ & _ & _ & _ & ->).
    destruct Happ as [Hu He Ha Hc Huc Htu Heu Hae].
    constructor; cbn; try done.
    + by rewrite restatus_ids.
    + intros b Hin. apply list_elem_of_fmap in Hin as (b0 & -> & Hin).
      rewrite restatus_expense. by apply Hae.
  - apply act_on_approval_raise in Hrun as ->. cbn [snd].
    by destruct app.
Qed.

Lemma serve_consistent upper c app :
  consistent app → consistent (serve upper c app).
Proof.
  intros Happ. destruct c; cbn [serve].
  - by apply consistent_signup.
  - by apply consistent_login.
  - apply consistent_authenticated; [done|].
    intros user Hin. by apply consistent_create_user.
  - apply consistent_authenticated; [done|].
    intros user Hin. by apply consistent_submit_expense.
  - apply consistent_authenticated; [done|].
    intros user _. rewrite in_session_snd. cbn. by destruct app.
  - apply consistent_authenticated; [done|].
    intros user _. by apply consistent_act_on_approval.
  - done.
Qed.

Lemma consistent_reachable upper rs app :
  reachable upper rs app → consistent app.
Proof.
  induction 1 as [|app c _ IH].
  - constructor; cbn; try apply NoDup_nil_2;
      try (intros ? Hin; by apply elem_of_nil in Hin).
    intros t uid Ht. by rewrite lookup_empty in Ht.
  - by apply serve_consistent.
Qed.

(** X14: in every state the process reaches from start-up, by any calls and
    whatever rule table it was started with, the ids of users, expenses,
    requests and companies are unique, every user's company, every expense's
    owner and every request's expense is a stored row, and every token in
    [fake_tokens] is the id of a stored user. *)
Theorem reachable_consistent upper rs app :
  reachable upper rs app → consistent app.
Proof. apply consistent_reachable. Qed.

Lemma office_reachable : reachable ascii_upper [] office.
Proof.
  unfold office. cbn [foldl].
  repeat apply reachable_serve. apply reachable_start.
Defined.

Lemma reachable_consistent_witness : consistent office.
Proof.
  exact (reachable_consistent ascii_upper [] office office_reachable).
Defined.

(** X15: in a reachable state every token of [fake_tokens] authenticates:
    [get_current_user] returns the stored user the token names, never 401
    "User not found". That user's company is a stored row, so
    [list_company_expenses] for that user answers with a list or with 403 and
    never fails on a missing company. *)
Theorem reachable_tokens_authenticate upper rs app token uid :
  reachable upper rs app →
  fake_tokens app !! token = Some uid →
  ∃ user company,
    get_current_user token app = (Return user, app) ∧
    user ∈ users (store app) ∧ User.id user = uid ∧
    company_of user app = Some company ∧
    Company.id company = User.company_id user ∧
    list_company_expenses user app ≠ AttributeError.
Proof.
  intros Hreach Htok. apply consistent_reachable in Hreach.
  destruct Hreach as [_ _ _ _ Huc Htu _ _].
  unfold get_current_user. rewrite Htok.
  destruct (lookup_user uid (store app)) as [user|] eqn:Hfind.
  - apply lookup_user_elem_of in Hfind as [Hin Hid].
    unfold list_company_expenses.
    destruct (company_of user app) as [company|] eqn:Hco.
    + exists user, company. repeat split; try done.
      * unfold company_of in Hco. apply find_elem_of in Hco as [_ Hco]. lia.
      * rewrite Hco. by destruct (negb _).
    + unfold company_of in Hco. rewrite find_none_iff in Hco.
      specialize (Huc user Hin).
      apply list_elem_of_fmap in Huc as (c & Hc & Hcin).
      specialize (Hco c Hcin). simpl in Hco. lia.
  - unfold lookup_user in Hfind. rewrite find_none_iff in Hfind.
    specialize (Htu token uid Htok).
    apply list_elem_of_fmap in Htu as (u & -> & Hu).
    specialize (Hfind u Hu). simpl in Hfind. lia.
Qed.

Lemma reachable_tokens_authenticate_witness :
  ∃ user company,
    get_current_user "tok-root" office = (Return user, office) ∧
    user ∈ users (store office) ∧ User.id user = 1 ∧
    company_of user office = Some company ∧
    Company.id company = User.company_id user ∧
    list_company_expenses user office ≠ AttributeError.
Proof.
  apply (reachable_tokens_authenticate ascii_upper [] office "tok-root" 1
           office_reachable).
  vm_compute. reflexivity.
Defined.

(** ** What an admin sees *)

(** X16: [list_company_expenses] for an admin whose company is stored returns
    the stored expenses owned by the users of that company, and no others.
    After a user's [submit_expense], the admin's listing is the former one
    followed by the new expense, as stored, when the amount is a number (not
    NaN) and the submitter's id is that of a user of the admin's company; it
    is the former one unchanged when the amount is NaN (nothing was stored)
    or the submitter's id is that of no user of the company. *)
Theorem admin_lists_company_expenses amount currency category description
    utcnow admin current_user app company :
  User.role admin = UserRole.ADMIN →
  company_of admin app = Some company →
  ∃ before,
    list_company_expenses admin app = Responded (Return before) ∧
    (∀ x, x ∈ before ↔
          x ∈ expenses (store app) ∧
          ∃ u, u ∈ users (store app) ∧ User.id u = Expense.user_id x ∧
               User.company_id u = User.company_id admin) ∧
    (is_nan amount = false →
     (User.id current_user ∈ User.id <$> company_users company app) →
     list_company_expenses admin
       (snd (in_session (submit_expense amount currency category description
                           utcnow current_user) app))
     = Responded (Return (before ++
         [Expense.mk (next_id (Expense.id <$> expenses (store app)))
            (sqlite_real amount) currency category description utcnow
            (User.id current_user)]))) ∧
    (is_nan amount = true ∨
     (User.id current_user ∉ User.id <$> company_users company app) →
     list_company_expenses admin
       (snd (in_session (submit_expense amount currency category description
                           utcnow current_user) app))
     = Responded (Return before)).
Proof.
  intros Hrole Hco.
  assert (Hcid : Company.id company = User.company_id admin).
  { unfold company_of in Hco. apply find_elem_of in Hco as [_ Hco]. lia. }
  eexists. split; [|split].
  - unfold list_company_expenses.
    by rewrite bool_decide_eq_true_2, Hco by done.
  - intros x. rewrite list_elem_of_filter. split.
    + intros [Hmem Hx]. split; [done|].
      apply list_elem_of_fmap in Hmem as (u & Hid & Hu).
      apply list_elem_of_filter in Hu as [Hcu Hu].
      exists u. repeat split; [done|done|congruence].
    + intros [Hx (u & Hu & Hid & Hcu)]. split; [|done].
      rewrite <- Hid. apply list_elem_of_fmap_2.
      apply list_elem_of_filter. split; [congruence|done].
  - rewrite in_session_snd.
    destruct (is_nan amount) eqn:Hnan.
    { rewrite submit_expense_nan by done. cbn [snd].
      split; [done|]. intros _.
      unfold list_company_expenses, company_of, company_users in *.
      cbn [store users expenses companies].
      by rewrite bool_decide_eq_true_2, Hco by done. }
    destruct (submit_expense_shape amount currency category description utcnow
                current_user (store app) Hnan)
      as (e & news & -> & -> & _).
    unfold list_company_expenses, company_of, company_users in *.
    cbn [snd store users expenses companies].
    rewrite bool_decide_eq_true_2, Hco by done.
    rewrite filter_app.
    split.
    + intros _ Hmem. do 2 f_equal. by rewrite filter_cons_True.
    + intros [Hn | Hmem]; [done|]. do 2 f_equal.
      rewrite filter_cons_False by done. by rewrite app_nil_r.
Qed.

Lemma admin_lists_company_expenses_witness :
  ∃ before,
    list_company_expenses root office = Responded (Return before) ∧
    list_company_expenses root
      (snd (in_session (submit_expense 42%float "INR" "travel" "train"
                          1700000000 eli) office))
    = Responded (Return (before ++
        [Expense.mk 1 42%float "INR" "travel" "train" 1700000000 3])).
Proof.
  destruct (admin_lists_company_expenses 42%float "INR" "travel" "train"
              1700000000 root eli office (Company.mk 1 "Acme" "in" "INR")
              eq_refl eq_refl) as (before & Hbefore & _ & Hin & _).
  exists before. split; [exact Hbefore|].
  apply Hin; [reflexivity|]. vm_compute. do 2 right. left.
Defined.

(** ** Nothing is deleted, and rules are never written *)

Lemma extends_refl app : extends app app.
Proof. by repeat split. Qed.

Lemma extends_eta app :
  extends app (mkApp (store app) (companies app) (fake_tokens app)).
Proof. by repeat split. Qed.

Lemma extends_authenticated {A} token (route : User.t → Handler A) app :
  (∀ user, extends app (snd (route user app))) →
  extends app (snd (authenticated token route app)).
Proof.
  intros Hroute. rewrite authenticated_unfold.
  destruct (fake_tokens app !! token); [|apply extends_refl].
  destruct (lookup_user _ _); [apply Hroute|apply extends_refl].
Qed.

Lemma serve_extends upper c app : extends app (serve upper c app).
Proof.
  destruct c; cbn [serve].
  - rewrite signup_unfold. cbv zeta. cbn [snd].
    repeat split; cbn; try done; try (by apply prefix_app_r).
    intros tok Htok. apply lookup_insert_is_Some.
    destruct (decide (token = tok)); [by left|by right].
  - unfold login. destruct (find _ _); [|apply extends_refl].
    repeat split; cbn; try done.
    intros tok Htok. apply lookup_insert_is_Some.
    destruct (decide (token = tok)); [by left|by right].
  - apply extends_authenticated. intros user.
    rewrite in_session_snd, create_user_unfold.
    destruct (negb _); [apply extends_eta|].
    destruct (from_option is_int64 true manager_id); [|apply extends_eta].
    repeat split; cbn; try done. by apply prefix_app_r.
  - apply extends_authenticated. intros user. rewrite in_session_snd.
    destruct (is_nan amount) eqn:Hnan.
    { rewrite submit_expense_nan by done. apply extends_eta. }
    destruct (submit_expense_shape amount currency category description utcnow
                user (store app) Hnan) as (e & news & -> & -> & _).
    repeat split; cbn; try done; try (by apply prefix_app_r).
    rewrite fmap_app. by apply prefix_app_r.
  - apply extends_authenticated. intros user. rewrite in_session_snd.
    apply extends_eta.
  - apply extends_authenticated. intros user. rewrite in_session_snd.
    destruct (act_on_approval approval_id action user (store app))
      as [[r|e] db'] eqn:Hrun.
    + apply act_on_approval_inv in Hrun as (a & _ & _ & _ & _ & ->).
      repeat split; cbn; try done. by rewrite restatus_ids.
    + apply act_on_approval_raise in Hrun as ->. apply extends_eta.
  - apply extends_refl.
Qed.

(** X17: no call deletes anything. After any call, the users, expenses and
    companies stored before are still there, unchanged and in front of any new
    row; the requests stored before are still there under the same ids; every
    token that was in [fake_tokens] still is; and the rules are the same. *)
Theorem serve_never_deletes upper c app : extends app (serve upper c app).
Proof. apply serve_extends. Qed.

(** X18: no route writes an approval rule: in every reachable state the rule
    table is the one the process was started with. *)
Theorem reachable_rules_fixed upper rs app :
  reachable upper rs app → rules (store app) = rs.
Proof.
  induction 1 as [|app c _ IH]; [done|].
  destruct (serve_extends upper c app) as [Hrules _]. congruence.
Qed.

Lemma reachable_rules_fixed_witness : rules (store office) = [].
Proof.
  exact (reachable_rules_fixed ascii_upper [] office office_reachable).
Defined.

(** ** Integers the store cannot take *)

(** X20: an [approval_id] outside the 64-bit signed range makes
    [act_on_approval] raise [OverflowError] at the lookup, whoever calls and
    whatever the action; the store is unchanged. No such id is answered with
    404 or 400. *)
Theorem act_on_approval_overflow approval_id action current_user db :
  is_int64 approval_id = false →
  act_on_approval approval_id action current_user db
    = (Raise OverflowError, db).
Proof.
  intros Hrange. by rewrite act_on_approval_unfold, Hrange.
Qed.

Lemma act_on_approval_overflow_witness :
  act_on_approval (2 ^ 63) "approved" bob db_submitted
    = (Raise OverflowError, db_submitted) ∧
  act_on_approval (- 2 ^ 63 - 1) "escalate" carol db_submitted
    = (Raise OverflowError, db_submitted).
Proof.
  split; apply act_on_approval_overflow; reflexivity.
Defined.

(** X21: an admin's [create_user] with a [manager_id] outside the 64-bit
    signed range raises [OverflowError] and stores no user; within the range,
    or without a manager id, it returns. A caller who is not an admin gets
    403 whatever the manager id is. *)
Theorem create_user_manager_id_range email password role manager_id
    current_user db :
  (User.role current_user = UserRole.ADMIN →
   from_option is_int64 true manager_id = false →
   create_user email password role manager_id current_user db
     = (Raise OverflowError, db)) ∧
  (User.role current_user = UserRole.ADMIN →
   from_option is_int64 true manager_id = true →
   ∃ db', create_user email password role manager_id current_user db
            = (Return (mkCreated (next_id (User.id <$> users db)) email role),
               db')) ∧
  (User.role current_user ≠ UserRole.ADMIN →
   create_user email password role manager_id current_user db
     = (Raise (mkHTTP 403 "Only admin can create users"), db)).
Proof.
  rewrite create_user_unfold. repeat split.
  - intros Hrole Hrange. by rewrite bool_decide_eq_true_2, Hrange by done.
  - intros Hrole Hrange. rewrite bool_decide_eq_true_2, Hrange by done.
    by eexists.
  - intros Hrole. by rewrite bool_decide_eq_false_2 by done.
Qed.

Lemma create_user_manager_id_range_witness :
  create_user "zoe@acme.test" "pw-zoe" "employee" (Some (2 ^ 63)) root
    (store office)
    = (Raise OverflowError, store office) ∧
  ∃ db', create_user "zoe@acme.test" "pw-zoe" "employee" (Some (2 ^ 63 - 1))
           root (store office)
         = (Return (mkCreated 4 "zoe@acme.test" "employee"), db').
Proof.
  destruct (create_user_manager_id_range "zoe@acme.test" "pw-zoe" "employee"
              (Some (2 ^ 63)) root (store office)) as (Hover & _ & _).
  destruct (create_user_manager_id_range "zoe@acme.test" "pw-zoe" "employee"
              (Some (2 ^ 63 - 1)) root (store office)) as (_ & Hok & _).
  split; [by apply Hover | by apply Hok].
Defined.
